(** * Location-broadcast server: target registry, pollers, sessions, console

    A shallow embedding of [Assets/Scripts/gps_pc.py] (the simulated
    variant) and [Assets/Scripts/gps_android.py] (the live variant).

    Conventions of the embedding.
    - Python values are the inductive [pyval]; a [dict] literal with string
      keys is an insertion-ordered association list.
    - The module-level global [target_location] is a finite map from field
      names to values, held in the [world]; reading a field is a lookup that
      raises [KeyError] when the key is missing, as a Python subscript does.
    - A Python [float] is modelled by the rational number it denotes (plus
      the two infinities and NaN): binary64 rounding error is outside the
      model.
    - Statements with effects run in an exception monad over the [world]:
      standard output and input, the wall clock, the random generator, the
      location command and the sockets.
    - Built-in functions whose definition is not part of the repository
      ([float], [str], [bytes.decode], [json.loads]) are the fields of the
      class [Builtins]. *)

From Stdlib Require Import ZArith QArith Qround Lia Lqa.
From stdpp Require Import gmap strings list fin_maps.

Set Warnings "-register-all".

Local Open Scope string_scope.
Local Open Scope Z_scope.

(** ** Values *)

Inductive float : Type :=
| Finite (q : Q)
| Infinity (negative : bool)
| NaN.

Inductive pyval : Type :=
| PyNone
| PyBool (b : bool)
| PyInt (z : Z)
| PyFloat (f : float)
| PyStr (s : string)
| PyBytes (b : list Byte.byte)
| PyList (l : list pyval)
| PyDict (d : list (string * pyval)).

(** The exceptions the two scripts can meet. [KeyboardInterrupt] and
    [SystemExit] derive from [BaseException] only, so [except Exception]
    lets them through. *)
Inductive exn : Type :=
| KeyError (k : string)
| TypeError
| AttributeError
| ValueError
| JSONDecodeError
| UnicodeDecodeError
| CalledProcessError (returncode : Z)
| FileNotFoundError
| OSError (errno : Z)
| IndexError
| EOFError
| KeyboardInterrupt
| SystemExit.

Definition is_Exception (e : exn) : bool :=
  match e with
  | KeyboardInterrupt | SystemExit => false
  | _ => true
  end.

(** [json.JSONDecodeError] and [UnicodeDecodeError] derive from
    [ValueError]. *)
Definition is_ValueError (e : exn) : bool :=
  match e with
  | ValueError | JSONDecodeError | UnicodeDecodeError => true
  | _ => false
  end.

(** ** JSON values, the output of [json.dumps] before it is rendered *)

Inductive json : Type :=
| JNull
| JBool (b : bool)
| JInt (z : Z)
| JFloat (f : float)
| JString (s : string)
| JArray (l : list json)
| JObject (members : list (string * json)).

(** ** The world *)

(** One accepted connection: whether the socket is still open, the messages
    written to it, and the number of [send] calls made on it. *)
Record socket : Type := Socket {
  sock_open : bool;
  sock_sent : list json;
  sock_calls : nat
}.

Record world : Type := World {
  (* the global [target_location] *)
  target_location : gmap string pyval;
  (* what [print] wrote, oldest first *)
  stdout : list string;
  (* the lines [input] will read *)
  stdin : list string;
  (* [time.time()], in seconds *)
  clock : Q;
  (* the values [random.random()] returns, and how many were drawn *)
  random_draws : nat -> Q;
  random_drawn : nat;
  (* what each run of the [termux-location] command yields, and how many ran *)
  termux_location : nat -> exn + list Byte.byte;
  termux_runs : nat;
  (* accepted connections by descriptor, and the failure (if any) of the
     n-th [send] on each *)
  sockets : gmap nat socket;
  send_error : nat -> nat -> option exn;
  (* the listening socket *)
  listening : bool
}.

Definition set_target (t : gmap string pyval) (w : world) : world :=
  World t (stdout w) (stdin w) (clock w) (random_draws w) (random_drawn w)
        (termux_location w) (termux_runs w) (sockets w) (send_error w)
        (listening w).

Definition set_stdout (o : list string) (w : world) : world :=
  World (target_location w) o (stdin w) (clock w) (random_draws w)
        (random_drawn w) (termux_location w) (termux_runs w) (sockets w)
        (send_error w) (listening w).

Definition set_stdin (i : list string) (w : world) : world :=
  World (target_location w) (stdout w) i (clock w) (random_draws w)
        (random_drawn w) (termux_location w) (termux_runs w) (sockets w)
        (send_error w) (listening w).

Definition set_clock (c : Q) (w : world) : world :=
  World (target_location w) (stdout w) (stdin w) c (random_draws w)
        (random_drawn w) (termux_location w) (termux_runs w) (sockets w)
        (send_error w) (listening w).

Definition set_random_drawn (n : nat) (w : world) : world :=
  World (target_location w) (stdout w) (stdin w) (clock w) (random_draws w)
        n (termux_location w) (termux_runs w) (sockets w) (send_error w)
        (listening w).

Definition set_termux_runs (n : nat) (w : world) : world :=
  World (target_location w) (stdout w) (stdin w) (clock w) (random_draws w)
        (random_drawn w) (termux_location w) n (sockets w) (send_error w)
        (listening w).

Definition set_sockets (s : gmap nat socket) (w : world) : world :=
  World (target_location w) (stdout w) (stdin w) (clock w) (random_draws w)
        (random_drawn w) (termux_location w) (termux_runs w) s (send_error w)
        (listening w).

(** ** The exception monad *)

(** What running a statement does: it returns, it raises, or (for a loop
    bounded by fuel) it is still iterating when the fuel runs out. *)
Inductive outcome (A : Type) : Type :=
| Return (a : A) (w : world)
| Raise (e : exn) (w : world)
| Running (w : world).
Arguments Return {A} a w.
Arguments Raise {A} e w.
Arguments Running {A} w.

Definition world_of {A} (o : outcome A) : world :=
  match o with
  | Return _ w | Raise _ w | Running w => w
  end.

Definition M (A : Type) : Type := world -> outcome A.

Definition ret {A} (a : A) : M A := fun w => Return a w.

Definition raise {A} (e : exn) : M A := fun w => Raise e w.

Definition bind {A B} (m : M A) (k : A -> M B) : M B :=
  fun w =>
    match m w with
    | Return a w' => k a w'
    | Raise e w' => Raise e w'
    | Running w' => Running w'
    end.

Declare Scope py_scope.
Delimit Scope py_scope with py.
Notation "x <- m ;; k" := (bind m (fun x => k))
  (at level 100, m at next level, right associativity) : py_scope.
Notation "m ;;; k" := (bind m (fun _ => k))
  (at level 100, right associativity) : py_scope.
Local Open Scope py_scope.

(** [try: body except C as e: handler e], with [catches] the test
    [isinstance(e, C)] *)
Definition try_except {A} (catches : exn -> bool) (body : M A)
    (handler : exn -> M A) : M A :=
  fun w =>
    match body w with
    | Return a w' => Return a w'
    | Raise e w' => if catches e then handler e w' else Raise e w'
    | Running w' => Running w'
    end.

(** [try: body finally: cleanup] *)
Definition try_finally {A} (body : M A) (cleanup : M unit) : M A :=
  fun w =>
    match body w with
    | Return a w' => (cleanup ;;; ret a) w'
    | Raise e w' => (cleanup ;;; raise e) w'
    | Running w' => Running w'
    end.

(** [while True: body], unrolled [fuel] times *)
Fixpoint while_true {A} (fuel : nat) (body : M unit) : M A :=
  match fuel with
  | O => fun w => Running w
  | S n => body ;;; while_true n body
  end.

(** ** Built-ins *)

Class Builtins : Type := {
  (* [float(s)]; [None] stands for [ValueError] *)
  float_of_str : string -> option float;
  (* [str(v)], as an f-string formats a value *)
  str_of_val : pyval -> string;
  (* [str(e)] of an exception *)
  str_of_exn : exn -> string;
  (* [b.decode('utf-8')]; [None] stands for [UnicodeDecodeError] *)
  decode_utf8 : list Byte.byte -> option string;
  (* [json.loads(s)]; [None] stands for [JSONDecodeError] *)
  json_loads : string -> option pyval;
  (* the text [json.dumps] renders a JSON value to *)
  json_text : json -> string
}.

(** [print(s)] and [print(s, end=...)] with an empty [end] *)
Definition newline : string := String (Ascii.ascii_of_nat 10) EmptyString.

Definition print (s : string) : M unit :=
  fun w => Return tt (set_stdout (stdout w ++ [s ++ newline]) w).

Definition print_noend (s : string) : M unit :=
  fun w => Return tt (set_stdout (stdout w ++ [s]) w).

(** [input()] *)
Definition input : M string :=
  fun w =>
    match stdin w with
    | [] => Raise EOFError w
    | l :: rest => Return l (set_stdin rest w)
    end.

(** [time.time()] and [time.sleep(d)] *)
Definition time_time : M Q := fun w => Return (clock w) w.

Definition time_sleep (d : Q) : M unit :=
  fun w => Return tt (set_clock (clock w + d)%Q w).

(** [int(x)] of a float truncates toward zero. *)
Definition int_of_Q (x : Q) : Z := Z.quot (Qnum x) (Z.pos (Qden x)).

(** [int(time.time() * 1000)] *)
Definition timestamp_ms : M pyval :=
  t <- time_time ;; ret (PyInt (int_of_Q (t * 1000)%Q)).

(** [target_location[key]] *)
Definition target_field (key : string) : M pyval :=
  fun w =>
    match target_location w !! key with
    | Some v => Return v w
    | None => Raise (KeyError key) w
    end.

(** The four fields of a waypoint, in the order a poll reads them *)
Definition fields_of (t : gmap string pyval) : option (list pyval) :=
  match t !! "latitude", t !! "longitude", t !! "altitude", t !! "isSet" with
  | Some a, Some b, Some c, Some d => Some [a; b; c; d]
  | _, _, _, _ => None
  end.

(** [target_location = t], the rebinding of the global *)
Definition assign_target_location (t : gmap string pyval) : M unit :=
  fun w => Return tt (set_target t w).


(** ** String methods used by the console *)

(** Strings are ASCII text. [str.isspace] holds of the characters 9-13,
    28-31 and 32. *)
Definition is_space (c : Ascii.ascii) : bool :=
  let n := Ascii.nat_of_ascii c in
  ((9 <=? n) && (n <=? 13) || (28 <=? n) && (n <=? 32))%nat.

(** [s.lower()] *)
Definition lower_char (c : Ascii.ascii) : Ascii.ascii :=
  let n := Ascii.nat_of_ascii c in
  if ((65 <=? n) && (n <=? 90))%nat then Ascii.ascii_of_nat (n + 32) else c.

Fixpoint lower (s : string) : string :=
  match s with
  | EmptyString => EmptyString
  | String c rest => String (lower_char c) (lower rest)
  end.

(** [s.split()]: the maximal runs of characters that are not white space.
    [tok] is the run being read, in reverse. *)
Fixpoint split_from (tok : list Ascii.ascii) (s : string) : list string :=
  let flush rest :=
    match tok with
    | [] => rest
    | _ => String.string_of_list_ascii (rev tok) :: rest
    end in
  match s with
  | EmptyString => flush []
  | String c rest =>
      if is_space c then flush (split_from [] rest)
      else split_from (c :: tok) rest
  end.

Definition split (s : string) : list string := split_from [] s.

(** [s.strip()] *)
Fixpoint lstrip (s : string) : string :=
  match s with
  | EmptyString => EmptyString
  | String c rest => if is_space c then lstrip rest else s
  end.

Definition rstrip (s : string) : string :=
  String.string_of_list_ascii
    (rev (String.list_ascii_of_string
            (lstrip (String.string_of_list_ascii (rev (String.list_ascii_of_string s)))))).

Definition strip (s : string) : string := rstrip (lstrip s).

(** [xs[i]] on a list *)
Definition list_item {A} (xs : list A) (i : nat) : M A :=
  match xs !! i with
  | Some x => ret x
  | None => raise IndexError
  end.

(** ** Numbers *)

(** [random.random()] *)
Definition random_random : M Q :=
  fun w =>
    Return (random_draws w (random_drawn w))
           (set_random_drawn (S (random_drawn w)) w).

(** [random.uniform(a, b)], which the library defines as
    [a + (b - a) * random()] *)
Definition random_uniform (a b : Q) : M Q :=
  u <- random_random ;; ret (a + (b - a) * u)%Q.

(** Rounding to the nearest integer, ties to the even one *)
Definition round_half_even (x : Q) : Z :=
  let f := Qfloor x in
  match (x - inject_Z f ?= 1 # 2)%Q with
  | Lt => f
  | Gt => f + 1
  | Eq => if Z.even f then f else f + 1
  end.

(** [round(x, ndigits)] on a float *)
Definition round (x : Q) (ndigits : nat) : Q :=
  (inject_Z (round_half_even (x * inject_Z (10 ^ Z.of_nat ndigits)))
   / inject_Z (10 ^ Z.of_nat ndigits))%Q.

(** ** Dictionaries and JSON *)

(** Lookup in a [dict] value *)
Fixpoint dict_lookup (key : string) (d : list (string * pyval))
  : option pyval :=
  match d with
  | [] => None
  | (k, v) :: rest => if String.eqb k key then Some v else dict_lookup key rest
  end.

(** [v[key]] with a string key *)
Definition subscript (v : pyval) (key : string) : M pyval :=
  match v with
  | PyDict d =>
      match dict_lookup key d with
      | Some x => ret x
      | None => raise (KeyError key)
      end
  | _ => raise TypeError
  end.

(** [v.get(key, dflt)] *)
Definition get_method (v : pyval) (key : string) (dflt : pyval) : M pyval :=
  match v with
  | PyDict d => ret (default dflt (dict_lookup key d))
  | _ => raise AttributeError
  end.

(** The value [json.dumps] encodes; [None] stands for the [TypeError] it
    raises on an object that is not serializable. *)
Fixpoint json_value (v : pyval) : option json :=
  match v with
  | PyNone => Some JNull
  | PyBool b => Some (JBool b)
  | PyInt z => Some (JInt z)
  | PyFloat f => Some (JFloat f)
  | PyStr s => Some (JString s)
  | PyBytes _ => None
  | PyList l =>
      let fix items (l : list pyval) : option (list json) :=
        match l with
        | [] => Some []
        | x :: rest =>
            match json_value x, items rest with
            | Some j, Some js => Some (j :: js)
            | _, _ => None
            end
        end in
      option_map JArray (items l)
  | PyDict d =>
      let fix members (d : list (string * pyval))
        : option (list (string * json)) :=
        match d with
        | [] => Some []
        | (k, x) :: rest =>
            match json_value x, members rest with
            | Some j, Some js => Some ((k, j) :: js)
            | _, _ => None
            end
        end in
      option_map JObject (members d)
  end.

Definition json_dumps (v : pyval) : M json :=
  match json_value v with
  | Some j => ret j
  | None => raise TypeError
  end.

(** ** Sockets *)

(** [sock.send(message)]: the message is the encoded text of [msg]. Whether
    the call fails is the environment's choice, [send_error]. *)
Definition socket_send (fd : nat) (msg : json) : M unit :=
  fun w =>
    match sockets w !! fd with
    | Some s =>
        if sock_open s then
          match send_error w fd (sock_calls s) with
          | Some e =>
              Raise e
                (set_sockets
                   (<[fd := Socket true (sock_sent s) (S (sock_calls s))]>
                      (sockets w)) w)
          | None =>
              Return tt
                (set_sockets
                   (<[fd := Socket true (sock_sent s ++ [msg])
                                   (S (sock_calls s))]> (sockets w)) w)
          end
        else Raise (OSError 9) w
    | None => Raise (OSError 9) w
    end.

(** [sock.close()] *)
Definition socket_close (fd : nat) : M unit :=
  fun w =>
    Return tt
      (set_sockets
         (alter (fun s => Socket false (sock_sent s) (sock_calls s)) fd
            (sockets w)) w).

Section Shared.
Context `{B : Builtins}.

(** [float(s)] *)
Definition float_ (s : string) : M pyval :=
  match float_of_str s with
  | Some f => ret (PyFloat f)
  | None => raise ValueError
  end.

(** ** The target registry (the same text in both scripts) *)

(** [gps_pc.py] lines 24-29, [gps_android.py] lines 15-20 *)
Definition initial_target_location : gmap string pyval :=
  {[ "latitude" := PyNone; "longitude" := PyNone;
     "altitude" := PyInt 0; "isSet" := PyBool false ]}.

(** [gps_pc.py] lines 81-96, [gps_android.py] lines 94-110. The third
    parameter is [None] when the caller omits [alt]. *)
Definition set_target_location (lat lon : pyval) (alt : option pyval)
  : M unit :=
  let alt := default (PyInt 0) alt in
  assign_target_location
    {[ "latitude" := lat; "longitude" := lon;
       "altitude" := alt; "isSet" := PyBool true ]} ;;;
  print ("[*] Target location set to: Lat=" ++ str_of_val lat
         ++ ", Lon=" ++ str_of_val lon ++ ", Alt=" ++ str_of_val alt).

(** [gps_pc.py] lines 98-109, [gps_android.py] lines 112-123 *)
Definition clear_target_location : M unit :=
  assign_target_location
    {[ "latitude" := PyNone; "longitude" := PyNone;
       "altitude" := PyInt 0; "isSet" := PyBool false ]} ;;;
  print "[*] Target location cleared".

(** The states of the registry the program can be in: the initial binding,
    then any calls of the two writers whose coordinate arguments satisfy
    [P], interleaved with any activity that does not rebind the global. *)
Inductive reachable (P : pyval -> Prop) : world -> Prop :=
| reach_init w :
    target_location w = initial_target_location -> reachable P w
| reach_set w lat lon alt w' :
    reachable P w -> P lat -> P lon ->
    set_target_location lat lon alt w = Return tt w' ->
    reachable P w'
| reach_clear w w' :
    reachable P w ->
    clear_target_location w = Return tt w' ->
    reachable P w'
| reach_other w w' :
    reachable P w ->
    target_location w' = target_location w ->
    reachable P w'.

Definition any_value : pyval -> Prop := fun _ => True.


(** ** The client session (the same text in both scripts, up to the poll
    and the pause) *)

Definition DEBUG_MODE : bool := false.

(** One turn of the [while True] loop of [handle_client]:
    [gps_pc.py] lines 60-75, [gps_android.py] lines 73-88 *)
Definition send_update (poll : M pyval) (pause : Q) (client_socket : nat)
  : M unit :=
  gps_data <- poll ;;
  json_data <- json_dumps gps_data ;;
  (if DEBUG_MODE then print ("Sending: " ++ json_text json_data)
   else ret tt) ;;;
  socket_send client_socket json_data ;;;
  time_sleep pause.

(** [gps_pc.py] lines 53-79, [gps_android.py] lines 65-92 *)
Definition handle_client_with (poll : M pyval) (pause : Q) (fuel : nat)
    (client_socket : nat) : M unit :=
  try_finally
    (try_except is_Exception
       (print "[*] Client connected, sending GPS data..." ;;;
        while_true fuel (send_update poll pause client_socket))
       (fun e => print ("Connection closed: " ++ str_of_exn e)))
    (socket_close client_socket).

(** ** The operator console (the same text in both scripts) *)

(** The body of the inner [try]: [gps_pc.py] lines 171-182,
    [gps_android.py] lines 189-200 *)
Definition read_coordinates : M unit :=
  print_noend "[?] Enter target coordinates (lat lon [alt]): " ;;;
  line <- input ;;
  let coords := strip line in
  let parts := split coords in
  if decide (2 <= length parts)%nat then
    lat <- (p <- list_item parts 0 ;; float_ p) ;;
    lon <- (p <- list_item parts 1 ;; float_ p) ;;
    alt <- (if decide (2 < length parts)%nat
            then p <- list_item parts 2 ;; float_ p
            else ret (PyInt 0)) ;;
    set_target_location lat lon (Some alt)
  else
    print "[!] Invalid format. Expected: latitude longitude [altitude]".

(** What [float] makes of the token at position [i], if there is one *)
Definition float_at (parts : list string) (i : nat) : option float :=
  p ← parts !! i; float_of_str p.

(** The altitude a coordinate line gives: its third token, else [0] *)
Definition altitude_of (parts : list string) : option pyval :=
  match parts !! 2%nat with
  | Some p => PyFloat <$> float_of_str p
  | None => Some (PyInt 0)
  end.

Definition print_help : M unit :=
  print (newline ++ "Commands:") ;;;
  print "  y, yes          - Set a target location" ;;;
  print "  clear           - Remove existing target" ;;;
  print "  help            - Show this help" ;;;
  print "  Ctrl+C          - Exit the server".

(** One turn of the [while True] loop of [handle_user_input]:
    [gps_pc.py] lines 164-201, [gps_android.py] lines 181-219 *)
Definition console_turn : M unit :=
  try_except is_Exception
    (print_noend (newline ++ "[?] Enter command (y/clear/help): ") ;;;
     line <- input ;;
     let response := lower line in
     if bool_decide (response ∈ ["y"; "yes"]) then
       try_except is_ValueError read_coordinates
         (fun _ =>
            print "[!] Invalid coordinates. Please enter numeric values.")
     else if bool_decide (response = "clear") then
       clear_target_location ;;;
       print "[*] Target location cleared"
     else if bool_decide (response = "help") then
       print_help
     else
       print "[!] Unknown command. Type 'help' for available commands.")
    (fun e => print ("[!] Error: " ++ str_of_exn e)).

(** [gps_pc.py] lines 158-201, [gps_android.py] lines 175-219 *)
Definition handle_user_input (fuel : nat) : M unit :=
  while_true fuel console_turn.

End Shared.

(** ** The simulated variant, [gps_pc.py] *)

Module gps_pc.
Section Script.
Context `{B : Builtins}.

(** lines 34-51 *)
Definition generate_random_gps : M pyval :=
  latitude <- random_uniform (633 # 10) (635 # 10) ;;
  longitude <- random_uniform (103 # 10) (107 # 10) ;;
  altitude <- random_uniform 0 100 ;;
  timestamp <- timestamp_ms ;;
  targetLatitude <- target_field "latitude" ;;
  targetLongitude <- target_field "longitude" ;;
  targetAltitude <- target_field "altitude" ;;
  hasTarget <- target_field "isSet" ;;
  ret (PyDict
         [ ("latitude", PyFloat (Finite (round latitude 4)));
           ("longitude", PyFloat (Finite (round longitude 4)));
           ("altitude", PyFloat (Finite (round altitude 1)));
           ("timestamp", timestamp);
           ("valid", PyBool true);
           ("targetLatitude", targetLatitude);
           ("targetLongitude", targetLongitude);
           ("targetAltitude", targetAltitude);
           ("hasTarget", hasTarget) ]).

(** lines 53-79: the session sends every 10 seconds *)
Definition handle_client (fuel : nat) (client_socket : nat) : M unit :=
  handle_client_with generate_random_gps 10 fuel client_socket.


End Script.
End gps_pc.

(** ** The live variant, [gps_android.py] *)

Module gps_android.
Section Script.
Context `{B : Builtins}.

(** [subprocess.check_output(['termux-location'])] *)
Definition check_output_termux_location : M (list Byte.byte) :=
  fun w =>
    let w' := set_termux_runs (S (termux_runs w)) w in
    match termux_location w (termux_runs w) with
    | inl e => Raise e w'
    | inr out => Return out w'
    end.

(** [b.decode('utf-8')] and [json.loads(s)] *)
Definition decode (b : list Byte.byte) : M string :=
  match decode_utf8 b with
  | Some s => ret s
  | None => raise UnicodeDecodeError
  end.

Definition loads (s : string) : M pyval :=
  match json_loads s with
  | Some v => ret v
  | None => raise JSONDecodeError
  end.

(** lines 31-49, the body of the [try] *)
Definition read_sensor : M pyval :=
  raw <- check_output_termux_location ;;
  output <- decode raw ;;
  location_data <- loads output ;;
  latitude <- subscript location_data "latitude" ;;
  longitude <- subscript location_data "longitude" ;;
  altitude <- get_method location_data "altitude" (PyInt 0) ;;
  timestamp <- timestamp_ms ;;
  targetLatitude <- target_field "latitude" ;;
  targetLongitude <- target_field "longitude" ;;
  targetAltitude <- target_field "altitude" ;;
  hasTarget <- target_field "isSet" ;;
  ret (PyDict
         [ ("latitude", latitude);
           ("longitude", longitude);
           ("altitude", altitude);
           ("timestamp", timestamp);
           ("valid", PyBool true);
           ("targetLatitude", targetLatitude);
           ("targetLongitude", targetLongitude);
           ("targetAltitude", targetAltitude);
           ("hasTarget", hasTarget) ]).

(** lines 50-63, the [except] clause *)
Definition fallback (e : exn) : M pyval :=
  print ("Error getting GPS data: " ++ str_of_exn e) ;;;
  timestamp <- timestamp_ms ;;
  targetLatitude <- target_field "latitude" ;;
  targetLongitude <- target_field "longitude" ;;
  targetAltitude <- target_field "altitude" ;;
  hasTarget <- target_field "isSet" ;;
  ret (PyDict
         [ ("latitude", PyFloat (Finite 0));
           ("longitude", PyFloat (Finite 0));
           ("altitude", PyFloat (Finite 0));
           ("timestamp", timestamp);
           ("valid", PyBool false);
           ("targetLatitude", targetLatitude);
           ("targetLongitude", targetLongitude);
           ("targetAltitude", targetAltitude);
           ("hasTarget", hasTarget) ]).

(** lines 25-63 *)
Definition get_android_gps : M pyval :=
  try_except is_Exception read_sensor fallback.

(** The poll meets an internal failure: the command fails, its output is
    not text or not JSON, or the value lacks [latitude] or [longitude]. *)
Definition sensor_failed (w : world) : bool :=
  match termux_location w (termux_runs w) with
  | inl _ => true
  | inr raw =>
      match decode_utf8 raw with
      | None => true
      | Some output =>
          match json_loads output with
          | Some (PyDict d) =>
              negb (bool_decide (is_Some (dict_lookup "latitude" d))
                    && bool_decide (is_Some (dict_lookup "longitude" d)))
          | _ => true
          end
      end
  end.

(** lines 65-92: the session sends every 5 seconds *)
Definition handle_client (fuel : nat) (client_socket : nat) : M unit :=
  handle_client_with get_android_gps 5 fuel client_socket.

End Script.
End gps_android.

(** ** The two scripts side by side *)

Inductive script : Type := gps_pc_py | gps_android_py.

Definition poll_of `{B : Builtins} (s : script) : M pyval :=
  match s with
  | gps_pc_py => gps_pc.generate_random_gps
  | gps_android_py => gps_android.get_android_gps
  end.

Definition pause_of (s : script) : Q :=
  match s with
  | gps_pc_py => 10
  | gps_android_py => 5
  end.

Definition handle_client_of `{B : Builtins} (s : script) (fuel : nat)
    (client_socket : nat) : M unit :=
  match s with
  | gps_pc_py => gps_pc.handle_client fuel client_socket
  | gps_android_py => gps_android.handle_client fuel client_socket
  end.

(** The world after [k] turns of a loop body that all returned *)
Fixpoint turns (k : nat) (body : M unit) (w : world) : option world :=
  match k with
  | O => Some w
  | S k' =>
      match body w with
      | Return _ w' => turns k' body w'
      | _ => None
      end
  end.

(** What a session on [fd] leaves alone: every other connection, the
    failures the network has in store, the listening socket, the
    registry. *)
Definition session_frame (fd : nat) (w w' : world) : Prop :=
  (forall fd', fd' <> fd -> sockets w' !! fd' = sockets w !! fd') /\
  send_error w' = send_error w /\
  listening w' = listening w /\
  target_location w' = target_location w.

(** What a statement that touches no socket leaves alone *)
Definition socket_frame (w w' : world) : Prop :=
  sockets w' = sockets w /\
  send_error w' = send_error w /\
  listening w' = listening w /\
  target_location w' = target_location w.

Definition keeps_sockets {A} (m : M A) : Prop :=
  forall w, socket_frame w (world_of (m w)).

Definition keeps_others {A} (fd : nat) (m : M A) : Prop :=
  forall w, session_frame fd w (world_of (m w)).

(** ** Threads: the console writer against the session readers *)

(** Every session runs in a thread of its own, next to the thread of the
    console. The interpreter may switch threads between any two evaluation
    steps. A call of a writer rebinds the global once; a poll evaluates
    [target_location["latitude"]], [target_location["longitude"]],
    [target_location["altitude"]] and [target_location["isSet"]] one after
    the other, each looking the global up again. *)
Module Interleaving.
Section Threads.
Context `{B : Builtins}.

Definition target_keys : list string :=
  ["latitude"; "longitude"; "altitude"; "isSet"].

(** An event is a call of a writer by the console (what it prints does not
    touch the registry, so the call is one step), or the next read of the
    registry by the poll of a session. A session stands for one poll: once
    it has read its four fields it takes no further step. *)
Inductive event : Type :=
| CallSet (lat lon : pyval) (alt : option pyval)
| CallClear
| ReadNext (session : nat).

Record state : Type := State {
  (* the shared world *)
  st_world : world;
  (* the target fields each session's current poll has read so far *)
  st_reads : gmap nat (list pyval);
  (* every waypoint the global was bound to, oldest first *)
  st_written : list (gmap string pyval)
}.

Definition start (w : world) : state :=
  State w ∅ [target_location w].

Definition write_with (op : M unit) (st : state) : option state :=
  match op (st_world st) with
  | Return _ w' =>
      Some (State w' (st_reads st) (st_written st ++ [target_location w']))
  | _ => None
  end.

Definition step (ev : event) (st : state) : option state :=
  match ev with
  | CallSet lat lon alt => write_with (set_target_location lat lon alt) st
  | CallClear => write_with clear_target_location st
  | ReadNext n =>
      let sofar : list pyval := default [] (st_reads st !! n) in
      match target_keys !! length sofar with
      | Some key =>
          match target_field key (st_world st) with
          | Return v w' =>
              Some (State w' (<[n := (sofar ++ [v])%list]> (st_reads st))
                          (st_written st))
          | _ => None
          end
      | None => None
      end
  end.

Fixpoint exec (evs : list event) (st : state) : option state :=
  match evs with
  | [] => Some st
  | ev :: rest =>
      match step ev st with
      | Some st' => exec rest st'
      | None => None
      end
  end.

(** No poll observes a waypoint that was never written whole. *)
Definition snapshots_atomic : Prop :=
  forall (w0 : world) (evs : list event) (st : state) (n : nat)
         (vs : list pyval),
    target_location w0 = initial_target_location ->
    exec evs (start w0) = Some st ->
    st_reads st !! n = Some vs ->
    length vs = 4%nat ->
    exists t, t ∈ st_written st /\ fields_of t = Some vs.

(** What every run keeps: the last waypoint written is the one the global
    is bound to, the registry is in a reachable state, and every field a
    poll has read is a field of some waypoint that was written. *)
Definition thread_inv (st : state) : Prop :=
  last (st_written st) = Some (target_location (st_world st)) /\
  reachable any_value (st_world st) /\
  (forall n vs i v,
      st_reads st !! n = Some vs -> vs !! i = Some v ->
      exists t key,
        t ∈ st_written st /\ target_keys !! i = Some key /\
        t !! key = Some v).

End Threads.
End Interleaving.

(** ** Shapes of packets *)


Definition is_number (v : pyval) : Prop :=
  match v with
  | PyInt _ | PyFloat _ => True
  | _ => False
  end.




(** Lookup of a member of a JSON object *)
Fixpoint member (key : string) (ms : list (string * json)) : option json :=
  match ms with
  | [] => None
  | (k, j) :: rest => if String.eqb k key then Some j else member key rest
  end.



(** ** Invariant of the registry *)

(** The global is bound to the cleared waypoint, or to a waypoint a call of
    [set_target_location] built from coordinates that satisfy [P]. *)
Definition registry_inv (P : pyval -> Prop)
    (t : gmap string pyval) : Prop :=
  t = initial_target_location \/
  exists lat lon alt,
    P lat /\ P lon /\
    t = {[ "latitude" := lat; "longitude" := lon;
           "altitude" := alt; "isSet" := PyBool true ]}.

(** ** A sample environment, to run the scripts on examples *)

(** A stand-in for [float]: unsigned decimal numerals such as [63.41]. *)
Fixpoint sample_numeral (s : string) (mantissa : Z) (scale : positive)
    (dot seen : bool) : option float :=
  match s with
  | EmptyString => if seen then Some (Finite (mantissa # scale)) else None
  | String c rest =>
      let n := Z.of_nat (Ascii.nat_of_ascii c) in
      if (48 <=? n) && (n <=? 57) then
        sample_numeral rest (10 * mantissa + (n - 48))
          (if dot then 10 * scale else scale)%positive dot true
      else if (n =? 46) && negb dot then
        sample_numeral rest mantissa scale true seen
      else None
  end.

Definition sample_location : pyval :=
  PyDict [ ("latitude", PyFloat (Finite (6341 # 100)));
           ("longitude", PyFloat (Finite (105 # 10))) ].

#[local] Instance sample_builtins : Builtins := {|
  float_of_str := fun s => sample_numeral s 0 1 false false;
  str_of_val := fun _ => "?";
  str_of_exn := fun _ => "?";
  decode_utf8 := fun b => Some (String.string_of_list_byte b);
  json_loads :=
    fun s => if String.eqb s EmptyString then None else Some sample_location;
  json_text := fun _ => "{}"
|}.

Definition sample_world : world :=
  {| target_location := initial_target_location;
     stdout := [];
     stdin := [];
     clock := 1700000000;
     random_draws := fun _ => (1 # 2)%Q;
     random_drawn := 0;
     termux_location := fun _ => inl FileNotFoundError;
     termux_runs := 0;
     sockets := {[ 4%nat := Socket true [] 0; 5%nat := Socket true [] 0 ]};
     send_error :=
       fun fd n => if (fd =? 4)%nat && (n =? 2)%nat
                   then Some (OSError 32) else None;
     listening := true |}.

(** The sample world once the operator has set a target *)
Definition sample_target_world : world :=
  world_of
    (set_target_location (PyFloat (Finite (6341 # 100)))
       (PyFloat (Finite (105 # 10))) (Some (PyInt 12)) sample_world).

(** The sample world with a target that [json.dumps] cannot encode *)
Definition sample_bytes_world : world :=
  world_of
    (set_target_location (PyBytes []) (PyFloat (Finite (105 # 10))) None
       sample_world).

(** A run in which a write cuts through a poll: session 0 reads the
    latitude, the console sets a target, session 0 reads the rest. *)
Definition torn_run : list Interleaving.event :=
  [ Interleaving.ReadNext 0;
    Interleaving.CallSet (PyFloat (Finite 1)) (PyFloat (Finite 2))
      (Some (PyFloat (Finite 3)));
    Interleaving.ReadNext 0; Interleaving.ReadNext 0;
    Interleaving.ReadNext 0 ].

(** ** The rest of the scripts *)

(** The registry holds values [json.dumps] can encode. *)
Definition serializable_target (w : world) : Prop :=
  exists a b c d,
    fields_of (target_location w) = Some [a; b; c; d] /\
    is_Some (json_value a) /\ is_Some (json_value b) /\
    is_Some (json_value c) /\ is_Some (json_value d).

(** Every run of the location command fails, with an [Exception]. *)
Definition sensor_dead (w : world) : Prop :=
  forall i, exists e, termux_location w i = inl e /\ is_Exception e = true.

(** A JSON object whose [valid] member is [b] *)
Definition valid_is (b : bool) (j : json) : Prop :=
  exists ms, j = JObject ms /\ member "valid" ms = Some (JBool b).

(** *** String methods used by [start_server]

    [sub in s] *)
Fixpoint contains (sub s : string) : bool :=
  String.prefix sub s
  || match s with
     | EmptyString => false
     | String _ rest => contains sub rest
     end.

(** [s.split(sep)] with a separator that is not empty: the pieces between
    the occurrences of [sep], found from the left. [piece] is the piece
    being read, in reverse; [skip] counts the characters of an occurrence
    still to pass. *)
Fixpoint split_on_from (sep : string) (skip : nat) (piece : list Ascii.ascii)
    (s : string) : list string :=
  match s with
  | EmptyString => [String.string_of_list_ascii (rev piece)]
  | String c rest =>
      match skip with
      | S k => split_on_from sep k piece rest
      | O =>
          if String.prefix sep s then
            String.string_of_list_ascii (rev piece)
            :: split_on_from sep (String.length sep - 1) [] rest
          else split_on_from sep O (c :: piece) rest
      end
  end.

Definition split_on (sep s : string) : list string :=
  split_on_from sep 0 [] s.

(** [gps_android.py] lines 142-145: the loop over the lines of the output
    of [ifconfig wlan0], with [ip_address] the value so far *)
Fixpoint scan_ifconfig (lines : list string) (ip_address : string)
  : M string :=
  match lines with
  | [] => ret ip_address
  | line :: rest =>
      if contains "inet " line then
        after <- list_item (split_on "inet " line) 1 ;;
        address <- list_item (split_on " " after) 0 ;;
        scan_ifconfig rest address
      else scan_ifconfig rest ip_address
  end.

Definition wlan0_address (ip_info : string) : M string :=
  scan_ifconfig (split_on newline ip_info) "unknown".

(** [os.system('termux-location')]: the command runs once, its exit status
    is dropped. *)
Definition os_system_termux_location : M unit :=
  fun w => Return tt (set_termux_runs (S (termux_runs w)) w).

Definition set_listening (l : bool) (w : world) : world :=
  World (target_location w) (stdout w) (stdin w) (clock w) (random_draws w)
        (random_drawn w) (termux_location w) (termux_runs w) (sockets w)
        (send_error w) l.

(** *** The host: the listening socket, the threads, the network *)

(** What a thread runs *)
Inductive thread_target : Type :=
| run_handle_user_input
| run_handle_client (client_socket : nat).

Record thread : Type := Thread {
  target : thread_target;
  daemon : bool
}.

Record host : Type := Host {
  host_world : world;
  (* the server socket: [SO_REUSEADDR], the address bound, the backlog *)
  reuse_address : bool;
  bound : option (string * Z);
  backlog : option Z;
  (* the threads started, oldest first *)
  started : list thread;
  (* what [bind] raises, if anything *)
  bind_error : option exn;
  (* what [gethostbyname(gethostname())] yields *)
  host_ip : exn + string;
  (* what [ifconfig wlan0] yields *)
  ifconfig_wlan0 : exn + list Byte.byte;
  (* what the calls of [accept] yield, in order: a connection (descriptor,
     address, port) or an exception; with none left, [accept] blocks *)
  incoming : list (exn + nat * (string * Z))
}.

Definition with_world (w : world) (h : host) : host :=
  Host w (reuse_address h) (bound h) (backlog h) (started h) (bind_error h)
       (host_ip h) (ifconfig_wlan0 h) (incoming h).

(** What running a statement of the main thread does: it returns, it
    raises, or it waits (in [accept], or in a loop out of fuel). *)
Inductive served (A : Type) : Type :=
| Served (a : A) (h : host)
| Failed (e : exn) (h : host)
| Waiting (h : host).
Arguments Served {A} a h.
Arguments Failed {A} e h.
Arguments Waiting {A} h.

Definition host_of {A} (o : served A) : host :=
  match o with
  | Served _ h | Failed _ h | Waiting h => h
  end.

Definition H (A : Type) : Type := host -> served A.

Definition hret {A} (a : A) : H A := fun h => Served a h.

Definition hbind {A C} (m : H A) (k : A -> H C) : H C :=
  fun h =>
    match m h with
    | Served a h' => k a h'
    | Failed e h' => Failed e h'
    | Waiting h' => Waiting h'
    end.

(** A statement of the scripts run by the main thread *)
Definition lift {A} (m : M A) : H A :=
  fun h =>
    match m (host_world h) with
    | Return a w => Served a (with_world w h)
    | Raise e w => Failed e (with_world w h)
    | Running w => Waiting (with_world w h)
    end.

(** [try: body except C: handler] on the main thread *)
Definition htry_except {A} (catches : exn -> bool) (body : H A)
    (handler : exn -> H A) : H A :=
  fun h =>
    match body h with
    | Served a h' => Served a h'
    | Failed e h' => if catches e then handler e h' else Failed e h'
    | Waiting h' => Waiting h'
    end.

Fixpoint hwhile_true {A} (fuel : nat) (body : H unit) : H A :=
  match fuel with
  | O => fun h => Waiting h
  | S n => hbind body (fun _ => hwhile_true n body)
  end.

Definition is_KeyboardInterrupt (e : exn) : bool :=
  match e with
  | KeyboardInterrupt => true
  | _ => false
  end.

(** [server = socket.socket(...)] and [server.setsockopt(..., SO_REUSEADDR, 1)] *)
Definition socket_socket : H unit :=
  fun h =>
    Served tt
      (Host (host_world h) false None None (started h) (bind_error h)
            (host_ip h) (ifconfig_wlan0 h) (incoming h)).

Definition setsockopt_reuseaddr : H unit :=
  fun h =>
    Served tt
      (Host (host_world h) true (bound h) (backlog h) (started h)
            (bind_error h) (host_ip h) (ifconfig_wlan0 h) (incoming h)).

(** [server.bind((ip, port))] *)
Definition server_bind (ip : string) (port : Z) : H unit :=
  fun h =>
    match bind_error h with
    | Some e => Failed e h
    | None =>
        Served tt
          (Host (host_world h) (reuse_address h) (Some (ip, port)) (backlog h)
                (started h) (bind_error h) (host_ip h) (ifconfig_wlan0 h)
                (incoming h))
    end.

(** [server.listen(n)] *)
Definition server_listen (n : Z) : H unit :=
  fun h =>
    Served tt
      (Host (set_listening true (host_world h)) (reuse_address h) (bound h)
            (Some n) (started h) (bind_error h) (host_ip h)
            (ifconfig_wlan0 h) (incoming h)).

(** [server.close()] *)
Definition server_close : H unit :=
  fun h => Served tt (with_world (set_listening false (host_world h)) h).

(** [server.accept()]: the new connection is an open socket with nothing
    sent on it. *)
Definition server_accept : H (nat * (string * Z)) :=
  fun h =>
    match incoming h with
    | [] => Waiting h
    | next :: later =>
        let h' :=
          Host (host_world h) (reuse_address h) (bound h) (backlog h)
               (started h) (bind_error h) (host_ip h) (ifconfig_wlan0 h)
               later in
        match next with
        | inl e => Failed e h'
        | inr (client, addr) =>
            Served (client, addr)
              (with_world
                 (set_sockets
                    (<[client := Socket true [] 0]> (sockets (host_world h)))
                    (host_world h)) h')
        end
    end.

(** [t = threading.Thread(target=...); t.daemon = True; t.start()] *)
Definition start_daemon_thread (t : thread_target) : H unit :=
  fun h =>
    Served tt
      (Host (host_world h) (reuse_address h) (bound h) (backlog h)
            (started h ++ [Thread t true]) (bind_error h) (host_ip h)
            (ifconfig_wlan0 h) (incoming h)).

(** [sk.gethostbyname(sk.gethostname())] *)
Definition gethostbyname_gethostname : H string :=
  fun h =>
    match host_ip h with
    | inl e => Failed e h
    | inr ip => Served ip h
    end.

(** [subprocess.check_output(['ifconfig', 'wlan0'])] *)
Definition check_output_ifconfig_wlan0 : H (list Byte.byte) :=
  fun h =>
    match ifconfig_wlan0 h with
    | inl e => Failed e h
    | inr out => Served out h
    end.

Declare Scope srv_scope.
Delimit Scope srv_scope with srv.
Notation "x <- m ;; k" := (hbind m (fun x => k))
  (at level 100, m at next level, right associativity) : srv_scope.
Notation "m ;;; k" := (hbind m (fun _ => k))
  (at level 100, right associativity) : srv_scope.

Section Servers.
Context `{B : Builtins}.
Local Open Scope srv_scope.

(** The [try] of [start_server]: [gps_pc.py] lines 145-156,
    [gps_android.py] lines 161-173 *)
Definition accept_loop (fuel : nat) : H unit :=
  htry_except is_KeyboardInterrupt
    (hwhile_true fuel
       (conn <- server_accept ;;
        lift (print ("[*] Accepted connection from " ++ fst (snd conn) ++ ":"
                     ++ str_of_val (PyInt (snd (snd conn))))) ;;;
        start_daemon_thread (run_handle_client (fst conn))))
    (fun _ =>
       lift (print "[*] Shutting down server") ;;;
       server_close).

End Servers.

Module gps_pc_main.
Section Script.
Context `{B : Builtins}.
Local Open Scope srv_scope.

(** [gps_pc.py] lines 111-156 *)
Definition start_server (fuel : nat) : H unit :=
  socket_socket ;;;
  setsockopt_reuseaddr ;;;
  let server_ip := "0.0.0.0" in
  let server_port := 8085 in
  server_bind server_ip server_port ;;;
  server_listen 5 ;;;
  ip_address <- gethostbyname_gethostname ;;
  lift (print "[*] GPS Simulator running") ;;;
  lift (print ("[*] IP Address: " ++ ip_address)) ;;;
  lift (print ("[*] Port: " ++ str_of_val (PyInt server_port))) ;;;
  lift (print ("[*] Use this IP in HoloLens: " ++ ip_address)) ;;;
  start_daemon_thread run_handle_user_input ;;;
  lift (print "[*] Target location interaction enabled") ;;;
  lift (print "[*] Press Ctrl+C to stop the server") ;;;
  lift (print "[*] Waiting for input...") ;;;
  accept_loop fuel.

(** lines 203-205 *)
Definition main (fuel : nat) : H unit :=
  lift (print "Starting GPS simulator server...") ;;;
  start_server fuel.

End Script.
End gps_pc_main.

Module gps_android_main.
Section Script.
Context `{B : Builtins}.
Local Open Scope srv_scope.

(** [gps_android.py] lines 125-173 *)
Definition start_server (fuel : nat) : H unit :=
  socket_socket ;;;
  setsockopt_reuseaddr ;;;
  let server_ip := "0.0.0.0" in
  let server_port := 8085 in
  server_bind server_ip server_port ;;;
  server_listen 5 ;;;
  raw <- check_output_ifconfig_wlan0 ;;
  ip_info <- lift (gps_android.decode raw) ;;
  ip_address <- lift (wlan0_address ip_info) ;;
  lift (print "[*] GPS Server running") ;;;
  lift (print ("[*] IP Address: " ++ ip_address)) ;;;
  lift (print ("[*] Port: " ++ str_of_val (PyInt server_port))) ;;;
  lift (print ("[*] Use this in Unity: " ++ ip_address ++ ":"
               ++ str_of_val (PyInt server_port))) ;;;
  start_daemon_thread run_handle_user_input ;;;
  lift (print "[*] Target location interaction enabled") ;;;
  lift (print "[*] Press Ctrl+C to stop the server") ;;;
  lift (print "[*] Waiting for input...") ;;;
  accept_loop fuel.

(** lines 221-225 *)
Definition main (fuel : nat) : H unit :=
  lift os_system_termux_location ;;;
  lift (print "Starting GPS server with target location support...") ;;;
  start_server fuel.

End Script.
End gps_android_main.

(** The start of either script *)
Definition start_server_of `{B : Builtins} (s : script) (fuel : nat)
  : H unit :=
  match s with
  | gps_pc_py => gps_pc_main.start_server fuel
  | gps_android_py => gps_android_main.start_server fuel
  end.

(** The script finds the address it prints: [gps_pc.py] resolves the host
    name, [gps_android.py] reads the output of [ifconfig wlan0]. *)
Definition address_found `{B : Builtins} (s : script) (h : host) : Prop :=
  match s with
  | gps_pc_py => exists ip, host_ip h = inr ip
  | gps_android_py =>
      exists raw ip_info,
        ifconfig_wlan0 h = inr raw /\ decode_utf8 raw = Some ip_info
  end.

(** The script fails to find its address, with [e]. *)
Definition address_error `{B : Builtins} (s : script) (h : host) (e : exn)
  : Prop :=
  match s with
  | gps_pc_py => host_ip h = inl e
  | gps_android_py =>
      ifconfig_wlan0 h = inl e \/
      exists raw,
        ifconfig_wlan0 h = inr raw /\ decode_utf8 raw = None /\
        e = UnicodeDecodeError
  end.

(** The threads a list of accepted connections gives rise to *)
Definition client_threads (conns : list (nat * (string * Z))) : list thread :=
  map (fun conn => Thread (run_handle_client (fst conn)) true) conns.

(** *** More of the sample environment *)

(** The output of [ifconfig wlan0] on a device with an address *)
Definition sample_ifconfig : string :=
  "wlan0: flags=4163<UP,BROADCAST,RUNNING,MULTICAST>  mtu 1500" ++ newline
  ++ "        inet 192.168.1.23  netmask 255.255.255.0" ++ newline
  ++ "        inet6 fe80::1  prefixlen 64  scopeid 0x20<link>" ++ newline.

(** A host on which two clients connect and the operator then stops the
    server *)
Definition sample_host : host :=
  {| host_world := sample_world;
     reuse_address := false;
     bound := None;
     backlog := None;
     started := [];
     bind_error := None;
     host_ip := inr "192.168.1.10";
     ifconfig_wlan0 := inr (String.list_byte_of_string sample_ifconfig);
     incoming :=
       [ inr (7%nat, ("192.168.1.50", 50000));
         inr (8%nat, ("192.168.1.51", 50001));
         inl KeyboardInterrupt ] |}.

(** The sample world with a location command that reports a position *)
Definition sample_sensor_world : world :=
  World initial_target_location [] [] 1700000000 (fun _ => (1 # 2)%Q) 0
        (fun _ => inr [Byte.x7b; Byte.x7d]) 0
        {[ 4%nat := Socket true [] 0 ]} (fun _ _ => None) true.

(** The sample world on a network that never fails *)
Definition sample_quiet_world : world :=
  World initial_target_location [] [] 1700000000 (fun _ => (1 # 2)%Q) 0
        (fun _ => inl FileNotFoundError) 0
        {[ 4%nat := Socket true [] 0 ]} (fun _ _ => None) true.

(** ** Proof steps *)

(** Runs a poll through its four reads of the registry, given the four
    lookups. *)
Ltac read_fields Ha Hb Hc Hd :=
  repeat (cbv beta iota;
          cbn [target_location set_random_drawn set_stdout set_termux_runs
               random_draws random_drawn clock stdout termux_runs];
          first [rewrite Ha | rewrite Hb | rewrite Hc | rewrite Hd]).

(** * Properties *)

(** ** The registry *)

Section Registry_facts.
Context `{B : Builtins}.

Lemma fields_of_waypoint (a b c d : pyval) :
  fields_of {[ "latitude" := a; "longitude" := b;
               "altitude" := c; "isSet" := d ]} = Some [a; b; c; d].
Proof. reflexivity. Qed.

Lemma fields_of_lookup (t : gmap string pyval) (a b c d : pyval) :
  fields_of t = Some [a; b; c; d] ->
  t !! "latitude" = Some a /\ t !! "longitude" = Some b /\
  t !! "altitude" = Some c /\ t !! "isSet" = Some d.
Proof.
  unfold fields_of.
  destruct (t !! "latitude"), (t !! "longitude"), (t !! "altitude"),
    (t !! "isSet"); intros [=]; subst; auto.
Qed.

Lemma target_field_Some (key : string) (v : pyval) (w : world) :
  target_location w !! key = Some v -> target_field key w = Return v w.
Proof. intros H. unfold target_field. now rewrite H. Qed.

Lemma set_target_location_run (lat lon : pyval) (alt : option pyval)
    (w : world) :
  exists out,
    set_target_location lat lon alt w
    = Return tt
        (set_stdout out
           (set_target
              {[ "latitude" := lat; "longitude" := lon;
                 "altitude" := default (PyInt 0) alt;
                 "isSet" := PyBool true ]} w)).
Proof. eexists. reflexivity. Qed.

Lemma clear_target_location_run (w : world) :
  clear_target_location w
  = Return tt
      (set_stdout (stdout w ++ ["[*] Target location cleared" ++ newline])
         (set_target initial_target_location w)).
Proof. reflexivity. Qed.

(** C1. Setting the target and then reading the registry yields the
    waypoint made of exactly the three values passed and [isSet = True]:
    the values are stored as they are, whatever they are, and an omitted
    altitude is stored as [0]. *)
Theorem set_then_snapshot (lat lon : pyval) (alt : option pyval) (w : world) :
  exists w',
    set_target_location lat lon alt w = Return tt w' /\
    target_location w'
    = {[ "latitude" := lat; "longitude" := lon;
         "altitude" := default (PyInt 0) alt; "isSet" := PyBool true ]} /\
    target_field "latitude" w' = Return lat w' /\
    target_field "longitude" w' = Return lon w' /\
    target_field "altitude" w' = Return (default (PyInt 0) alt) w' /\
    target_field "isSet" w' = Return (PyBool true) w' /\
    set_target_location lat lon None w
    = set_target_location lat lon (Some (PyInt 0)) w.
Proof.
  destruct (set_target_location_run lat lon alt w) as [out Hrun].
  eexists. split; [exact Hrun |].
  repeat split; try (apply target_field_Some; reflexivity).
Qed.

(** C2. Clearing the target and then reading the registry yields latitude
    and longitude [None], altitude [0] and [isSet = False], whatever was
    stored before; an altitude set earlier does not survive. *)
Theorem clear_then_snapshot (w : world) :
  exists w',
    clear_target_location w = Return tt w' /\
    target_location w'
    = {[ "latitude" := PyNone; "longitude" := PyNone;
         "altitude" := PyInt 0; "isSet" := PyBool false ]} /\
    target_field "latitude" w' = Return PyNone w' /\
    target_field "longitude" w' = Return PyNone w' /\
    target_field "altitude" w' = Return (PyInt 0) w' /\
    target_field "isSet" w' = Return (PyBool false) w' /\
    forall lat lon alt,
      exists w'',
        (set_target_location lat lon alt ;;; clear_target_location) w
        = Return tt w'' /\
        target_location w'' = target_location w'.
Proof.
  eexists. split; [apply clear_target_location_run |].
  repeat split; try (apply target_field_Some; reflexivity).
  intros lat lon alt. eexists. split; reflexivity.
Qed.

Lemma reachable_inv (P : pyval -> Prop) (w : world) :
  reachable P w -> registry_inv P (target_location w).
Proof.
  induction 1 as [w Hw | w lat lon alt w' Hr IH Hlat Hlon Hset
                 | w w' Hr IH Hclr | w w' Hr IH Heq].
  - now left.
  - destruct (set_target_location_run lat lon alt w) as [out Hrun].
    rewrite Hrun in Hset. injection Hset as <-.
    right. exists lat, lon, (default (PyInt 0) alt). auto.
  - rewrite clear_target_location_run in Hclr. injection Hclr as <-.
    now left.
  - now rewrite Heq.
Qed.

Lemma reachable_weaken (P Q : pyval -> Prop) (w : world) :
  (forall v, P v -> Q v) -> reachable P w -> reachable Q w.
Proof.
  intros HPQ. induction 1; eauto using reachable.
Qed.

(** In a reachable state the four fields are there to be read. *)
Lemma reachable_fields (P : pyval -> Prop) (w : world) :
  reachable P w ->
  exists a b c d, fields_of (target_location w) = Some [a; b; c; d].
Proof.
  intros Hr. destruct (reachable_inv P w Hr) as [-> | (lat & lon & alt & _ & _ & ->)];
    repeat eexists; reflexivity.
Qed.

(** ** The two polls, run *)

Lemma generate_random_gps_run (w : world) (a b c d : pyval) :
  fields_of (target_location w) = Some [a; b; c; d] ->
  gps_pc.generate_random_gps w
  = Return
      (PyDict
         [ ("latitude",
            PyFloat (Finite (round ((633 # 10) + ((635 # 10) - (633 # 10))
                                    * random_draws w (random_drawn w)) 4)));
           ("longitude",
            PyFloat (Finite (round ((103 # 10) + ((107 # 10) - (103 # 10))
                                    * random_draws w (S (random_drawn w))) 4)));
           ("altitude",
            PyFloat (Finite (round (0 + (100 - 0)
                                    * random_draws w (S (S (random_drawn w)))) 1)));
           ("timestamp", PyInt (int_of_Q (clock w * 1000)));
           ("valid", PyBool true);
           ("targetLatitude", a);
           ("targetLongitude", b);
           ("targetAltitude", c);
           ("hasTarget", d) ])
      (set_random_drawn (S (S (S (random_drawn w)))) w).
Proof.
  intros H. apply fields_of_lookup in H as (Ha & Hb & Hc & Hd).
  unfold gps_pc.generate_random_gps, bind, random_uniform, random_random,
    timestamp_ms, time_time, target_field, bind, ret.
  read_fields Ha Hb Hc Hd. reflexivity.
Qed.

Lemma fallback_run (e : exn) (w : world) (a b c d : pyval) :
  fields_of (target_location w) = Some [a; b; c; d] ->
  gps_android.fallback e w
  = Return
      (PyDict
         [ ("latitude", PyFloat (Finite 0));
           ("longitude", PyFloat (Finite 0));
           ("altitude", PyFloat (Finite 0));
           ("timestamp", PyInt (int_of_Q (clock w * 1000)));
           ("valid", PyBool false);
           ("targetLatitude", a);
           ("targetLongitude", b);
           ("targetAltitude", c);
           ("hasTarget", d) ])
      (set_stdout
         (stdout w
          ++ [("Error getting GPS data: " ++ str_of_exn e) ++ newline]) w).
Proof.
  intros H. apply fields_of_lookup in H as (Ha & Hb & Hc & Hd).
  unfold gps_android.fallback, bind, print, timestamp_ms, time_time,
    target_field, bind, ret.
  read_fields Ha Hb Hc Hd. reflexivity.
Qed.

(** A failed poll raises, either what the command raised or a
    [Exception] of the script's own making. *)
Lemma read_sensor_failed (w : world) :
  gps_android.sensor_failed w = true ->
  exists e,
    gps_android.read_sensor w
    = Raise e (set_termux_runs (S (termux_runs w)) w) /\
    (is_Exception e = true \/ termux_location w (termux_runs w) = inl e).
Proof.
  unfold gps_android.sensor_failed, gps_android.read_sensor,
    gps_android.check_output_termux_location, gps_android.decode,
    gps_android.loads.
  cbv [bind].
  destruct (termux_location w (termux_runs w)) as [e | raw]; [eauto |].
  destruct (decode_utf8 raw) as [output |]; cbv [ret raise];
    [| intros _; eexists; split; [reflexivity | now left]].
  destruct (json_loads output) as [v |];
    [| intros _; eexists; split; [reflexivity | now left]].
  destruct v as [| | | | | | | d];
    try (intros _; eexists; split; [reflexivity | now left]).
  cbv [subscript].
  destruct (dict_lookup "latitude" d) as [la |];
    [| intros _; eexists; split; [reflexivity | now left]].
  destruct (dict_lookup "longitude" d) as [lo |];
    [| intros _; eexists; split; [reflexivity | now left]].
  rewrite !bool_decide_eq_true_2 by eauto. discriminate.
Qed.

Lemma read_sensor_ok (w : world) (a b c d : pyval) :
  fields_of (target_location w) = Some [a; b; c; d] ->
  gps_android.sensor_failed w = false ->
  exists la lo al,
    gps_android.read_sensor w
    = Return
        (PyDict
           [ ("latitude", la);
             ("longitude", lo);
             ("altitude", al);
             ("timestamp", PyInt (int_of_Q (clock w * 1000)));
             ("valid", PyBool true);
             ("targetLatitude", a);
             ("targetLongitude", b);
             ("targetAltitude", c);
             ("hasTarget", d) ])
        (set_termux_runs (S (termux_runs w)) w).
Proof.
  intros H. apply fields_of_lookup in H as (Ha & Hb & Hc & Hd).
  unfold gps_android.sensor_failed, gps_android.read_sensor,
    gps_android.check_output_termux_location, gps_android.decode,
    gps_android.loads.
  cbv [bind].
  destruct (termux_location w (termux_runs w)) as [e | raw]; [discriminate |].
  destruct (decode_utf8 raw) as [output |]; cbv [ret raise]; [| discriminate].
  destruct (json_loads output) as [v |]; [| discriminate].
  destruct v as [| | | | | | | dd]; try discriminate.
  cbv [subscript get_method].
  destruct (dict_lookup "latitude" dd) as [la |];
    [| rewrite bool_decide_eq_false_2 by (intros [? [=]]); discriminate].
  destruct (dict_lookup "longitude" dd) as [lo |];
    [| rewrite (bool_decide_eq_false_2 (is_Some None)) by (intros [? [=]]);
       rewrite andb_false_r; discriminate].
  intros _. exists la, lo, (default (PyInt 0) (dict_lookup "altitude" dd)).
  unfold timestamp_ms, time_time, target_field, bind, ret.
  read_fields Ha Hb Hc Hd. reflexivity.
Qed.

(** Whatever the live poll returns carries the four fields of the
    registry. *)
Lemma get_android_gps_packet (w w' : world) (packet a b c d : pyval) :
  fields_of (target_location w) = Some [a; b; c; d] ->
  gps_android.get_android_gps w = Return packet w' ->
  exists la lo al v,
    packet
    = PyDict
        [ ("latitude", la);
          ("longitude", lo);
          ("altitude", al);
          ("timestamp", PyInt (int_of_Q (clock w * 1000)));
          ("valid", PyBool v);
          ("targetLatitude", a);
          ("targetLongitude", b);
          ("targetAltitude", c);
          ("hasTarget", d) ] /\
    target_location w' = target_location w /\
    sockets w' = sockets w /\ send_error w' = send_error w /\
    listening w' = listening w /\ clock w' = clock w.
Proof.
  intros Hf. unfold gps_android.get_android_gps, try_except.
  destruct (gps_android.sensor_failed w) eqn:Hs.
  - destruct (read_sensor_failed w Hs) as (e & -> & _).
    destruct (is_Exception e); [| discriminate].
    rewrite (fallback_run e _ a b c d) by exact Hf.
    intros [= <- <-]. repeat eexists.
  - destruct (read_sensor_ok w a b c d Hf Hs) as (la & lo & al & ->).
    intros [= <- <-]. repeat eexists.
Qed.


(** C6. In a reachable state, and when what the location command raises is
    an [Exception], the live poll returns a packet and raises nothing; when
    the command fails, or its output is not JSON, or the value lacks
    [latitude] or [longitude], the packet has [valid = False], zero
    latitude, longitude and altitude, the timestamp of the clock, and the
    four fields of the registry, and all that is left of the failure is one
    line on standard output. *)
Theorem android_poll_recovers (P : pyval -> Prop) (w : world) :
  reachable P w ->
  (forall e, termux_location w (termux_runs w) = inl e ->
             is_Exception e = true) ->
  exists packet w',
    gps_android.get_android_gps w = Return packet w' /\
    (gps_android.sensor_failed w = true ->
     exists e a b c d,
       fields_of (target_location w) = Some [a; b; c; d] /\
       packet
       = PyDict
           [ ("latitude", PyFloat (Finite 0));
             ("longitude", PyFloat (Finite 0));
             ("altitude", PyFloat (Finite 0));
             ("timestamp", PyInt (int_of_Q (clock w * 1000)));
             ("valid", PyBool false);
             ("targetLatitude", a);
             ("targetLongitude", b);
             ("targetAltitude", c);
             ("hasTarget", d) ] /\
       w' = set_stdout
              (stdout w
               ++ [("Error getting GPS data: " ++ str_of_exn e) ++ newline])
              (set_termux_runs (S (termux_runs w)) w)).
Proof.
  intros Hr Hexn.
  destruct (reachable_fields P w Hr) as (a & b & c & d & Hf).
  unfold gps_android.get_android_gps, try_except.
  destruct (gps_android.sensor_failed w) eqn:Hs.
  - destruct (read_sensor_failed w Hs) as (e & -> & He).
    assert (is_Exception e = true) as -> by (destruct He; auto).
    rewrite (fallback_run e _ a b c d) by exact Hf.
    eexists _, _. split; [reflexivity |].
    intros _. exists e, a, b, c, d. auto.
  - destruct (read_sensor_ok w a b c d Hf Hs) as (la & lo & al & ->).
    eexists _, _. split; [reflexivity |]. discriminate.
Qed.

End Registry_facts.

(** ** Rounding *)












Section Simulated_facts.
Context `{B : Builtins}.


End Simulated_facts.

(** ** The console *)

(** Two worlds built by the same updates, up to the bracketing of what was
    printed *)
Ltac same_world :=
  unfold print, print_noend, set_stdout, set_stdin, set_target;
  cbn [stdout stdin target_location clock random_draws random_drawn
       termux_location termux_runs sockets send_error listening];
  rewrite <- ?app_assoc; reflexivity.

Section Console_facts.
Context `{B : Builtins}.

Lemma console_turn_yes (w : world) (cmd line : string) (rest : list string) :
  stdin w = cmd :: line :: rest ->
  lower cmd ∈ ["y"; "yes"] ->
  console_turn w
  = try_except is_Exception
      (try_except is_ValueError read_coordinates
         (fun _ => print "[!] Invalid coordinates. Please enter numeric values."))
      (fun e => print ("[!] Error: " ++ str_of_exn e))
      (set_stdin (line :: rest)
         (set_stdout
            (stdout w ++ [newline ++ "[?] Enter command (y/clear/help): "]) w)).
Proof.
  intros Hin Hcmd.
  unfold console_turn, try_except at 1 3, bind at 1 2, print_noend, input.
  cbn [stdin set_stdout]. rewrite Hin. cbv beta iota.
  rewrite bool_decide_eq_true_2 by exact Hcmd. reflexivity.
Qed.

Lemma read_coordinates_short (w : world) (line : string) (rest : list string) :
  stdin w = line :: rest ->
  (length (split (strip line)) < 2)%nat ->
  read_coordinates w
  = Return tt
      (set_stdout
         ((stdout w ++ ["[?] Enter target coordinates (lat lon [alt]): "])
          ++ ["[!] Invalid format. Expected: latitude longitude [altitude]" ++ newline])
         (set_stdin rest w)).
Proof.
  intros Hin Hlen.
  unfold read_coordinates, bind at 1 2, print_noend, input.
  cbn [stdin set_stdout]. rewrite Hin. cbv beta iota zeta.
  destruct (decide (2 <= length (split (strip line)))%nat); [lia |].
  reflexivity.
Qed.


Lemma read_coordinates_long (w : world) (line : string) (rest : list string) :
  stdin w = line :: rest ->
  (2 <= length (split (strip line)))%nat ->
  read_coordinates w
  = let parts := split (strip line) in
    let w2 :=
      set_stdin rest
        (set_stdout
           (stdout w ++ ["[?] Enter target coordinates (lat lon [alt]): "])
           w) in
    match float_at parts 0, float_at parts 1, altitude_of parts with
    | Some lat, Some lon, Some alt =>
        set_target_location (PyFloat lat) (PyFloat lon) (Some alt) w2
    | _, _, _ => Raise ValueError w2
    end.
Proof.
  intros Hin Hlen.
  unfold read_coordinates, bind at 1 2, print_noend, input.
  cbn [stdin set_stdout]. rewrite Hin. cbv beta iota zeta.
  destruct (decide (2 <= length (split (strip line)))%nat); [| lia].
  unfold float_at, altitude_of.
  destruct (split (strip line)) as [| p0 [| p1 tl]]; simpl in Hlen; try lia.
  unfold list_item, float_, bind, ret, raise. cbn [lookup list_lookup length mbind option_bind].
  destruct (float_of_str p0) as [lat |]; [| reflexivity].
  destruct (float_of_str p1) as [lon |]; [| reflexivity].
  destruct tl as [| p2 tl]; cbn.
  - reflexivity.
  - destruct (float_of_str p2) as [alt |]; reflexivity.
Qed.


Lemma console_turn_returns (w : world) :
  exists w', console_turn w = Return tt w'.
Proof.
  destruct (stdin w) as [| cmd more] eqn:Hin.
  - unfold console_turn, try_except, bind, print_noend, input.
    cbn [stdin set_stdout]. rewrite Hin. cbn. eauto.
  - destruct (decide (lower cmd ∈ ["y"; "yes"])) as [Hy | Hy].
    + destruct more as [| line rest].
      * unfold console_turn, try_except at 1, bind at 1 2, print_noend,
          input.
        cbn [stdin set_stdout]. rewrite Hin. cbv beta iota.
        rewrite bool_decide_eq_true_2 by exact Hy.
        unfold try_except, read_coordinates, bind, print_noend, input.
        cbn. eauto.
      * rewrite (console_turn_yes w cmd line rest Hin Hy).
        unfold try_except.
        destruct (le_lt_dec 2 (length (split (strip line)))) as [Hl | Hl].
        -- rewrite (read_coordinates_long _ line rest) by (reflexivity || exact Hl).
           cbv zeta.
           destruct (float_at _ 0) as [lat |]; [| cbn; eauto].
           destruct (float_at _ 1) as [lon |]; [| cbn; eauto].
           destruct (altitude_of _) as [alt |]; [| cbn; eauto].
           cbn. eauto.
        -- rewrite (read_coordinates_short _ line rest) by (reflexivity || exact Hl).
           eauto.
    + unfold console_turn, try_except, bind at 1 2, print_noend, input.
      cbn [stdin set_stdout]. rewrite Hin. cbv beta iota.
      rewrite bool_decide_eq_false_2 by exact Hy.
      destruct (bool_decide (lower cmd = "clear")); [cbn; eauto |].
      destruct (bool_decide (lower cmd = "help")); cbn; eauto.
Qed.

Lemma handle_user_input_next (fuel : nat) (w w' : world) :
  console_turn w = Return tt w' ->
  handle_user_input (S fuel) w = handle_user_input fuel w'.
Proof.
  intros H. unfold handle_user_input. cbn [while_true].
  unfold bind at 1. now rewrite H.
Qed.


Lemma coordinates_of_take (p p' : list string) :
  take 3 p' = take 3 p ->
  float_at p' 0 = float_at p 0 /\ float_at p' 1 = float_at p 1 /\
  altitude_of p' = altitude_of p /\
  ((2 <= length p')%nat <-> (2 <= length p)%nat).
Proof.
  intros H.
  assert (forall i, (i < 3)%nat -> p' !! i = p !! i) as Hl.
  { intros i Hi.
    rewrite <- (lookup_take_lt p' 3 i), <- (lookup_take_lt p 3 i) by lia.
    now rewrite H. }
  unfold float_at, altitude_of. rewrite !Hl by lia.
  repeat split; try reflexivity.
  - intros Hp. destruct (p !! 1%nat) eqn:E.
    + apply lookup_lt_Some in E. lia.
    + rewrite <- Hl in E by lia. apply lookup_ge_None in E. lia.
  - intros Hp. destruct (p' !! 1%nat) eqn:E.
    + apply lookup_lt_Some in E. lia.
    + rewrite Hl in E by lia. apply lookup_ge_None in E. lia.
Qed.



(** C10. After [y] or [yes], a coordinate line of two tokens or more whose
    first two tokens, and third when there is one, are numerals sets the
    target to those numbers (altitude [0] without a third token) and prints
    the confirmation, no format message; the tokens after the third play no
    part: any line with the same first three tokens sets the same target. *)
Theorem extra_tokens_are_ignored (w : world) (cmd line : string)
    (rest : list string) (lat lon : float) (alt : pyval) :
  stdin w = cmd :: line :: rest ->
  lower cmd ∈ ["y"; "yes"] ->
  (2 <= length (split (strip line)))%nat ->
  float_at (split (strip line)) 0 = Some lat ->
  float_at (split (strip line)) 1 = Some lon ->
  altitude_of (split (strip line)) = Some alt ->
  exists w',
    console_turn w = Return tt w' /\
    target_location w'
    = {[ "latitude" := PyFloat lat; "longitude" := PyFloat lon;
         "altitude" := alt; "isSet" := PyBool true ]} /\
    stdout w'
    = (stdout w
       ++ [ (newline ++ "[?] Enter command (y/clear/help): ")%string;
            "[?] Enter target coordinates (lat lon [alt]): ";
            (("[*] Target location set to: Lat=" ++ str_of_val (PyFloat lat)
              ++ ", Lon=" ++ str_of_val (PyFloat lon)
              ++ ", Alt=" ++ str_of_val alt) ++ newline)%string ])%list /\
    forall line',
      take 3 (split (strip line')) = take 3 (split (strip line)) ->
      target_location
        (world_of (console_turn (set_stdin (cmd :: line' :: rest) w)))
      = target_location w'.
Proof.
  intros Hin Hcmd Hlen Hlat Hlon Halt.
  assert (forall l v,
             stdin v = cmd :: l :: rest ->
             (2 <= length (split (strip l)))%nat ->
             float_at (split (strip l)) 0 = Some lat ->
             float_at (split (strip l)) 1 = Some lon ->
             altitude_of (split (strip l)) = Some alt ->
             console_turn v
             = Return tt
                 (set_stdout
                    (((stdout v
                       ++ [newline ++ "[?] Enter command (y/clear/help): "])
                      ++ ["[?] Enter target coordinates (lat lon [alt]): "])
                     ++ [("[*] Target location set to: Lat="
                          ++ str_of_val (PyFloat lat)
                          ++ ", Lon=" ++ str_of_val (PyFloat lon)
                          ++ ", Alt=" ++ str_of_val alt) ++ newline])
                    (set_target
                       {[ "latitude" := PyFloat lat;
                          "longitude" := PyFloat lon;
                          "altitude" := alt; "isSet" := PyBool true ]}
                       (set_stdin rest v)))) as Hrun.
  { intros l v Hv Hl H0 H1 H2.
    rewrite (console_turn_yes v cmd l rest Hv Hcmd).
    unfold try_except.
    rewrite (read_coordinates_long _ l rest) by (reflexivity || exact Hl).
    cbv zeta. rewrite H0, H1, H2. reflexivity. }
  eexists. split; [apply (Hrun line w); assumption |].
  cbn [target_location stdout set_stdout set_target].
  rewrite <- !app_assoc. repeat split.
  intros line' Htake.
  destruct (coordinates_of_take _ _ Htake) as (E0 & E1 & E2 & El).
  rewrite (Hrun line' (set_stdin (cmd :: line' :: rest) w));
    [reflexivity | reflexivity | now apply El | congruence ..].
Qed.

End Console_facts.

(** ** Sessions *)

Section Session_facts.
Context `{B : Builtins}.

Lemma socket_frame_refl (w : world) : socket_frame w w.
Proof. repeat split. Qed.

Lemma socket_frame_trans (w1 w2 w3 : world) :
  socket_frame w1 w2 -> socket_frame w2 w3 -> socket_frame w1 w3.
Proof.
  intros (? & ? & ? & ?) (? & ? & ? & ?). repeat split; congruence.
Qed.

Lemma session_frame_refl (fd : nat) (w : world) : session_frame fd w w.
Proof. repeat split. Qed.

Lemma session_frame_trans (fd : nat) (w1 w2 w3 : world) :
  session_frame fd w1 w2 -> session_frame fd w2 w3 -> session_frame fd w1 w3.
Proof.
  intros (Ha & ? & ? & ?) (Hb & ? & ? & ?). repeat split; try congruence.
  intros fd' Hne. rewrite Hb, Ha by exact Hne. reflexivity.
Qed.

Lemma socket_session_frame (fd : nat) (w w' : world) :
  socket_frame w w' -> session_frame fd w w'.
Proof. intros (Hs & ? & ? & ?). repeat split; auto. intros. now rewrite Hs. Qed.

Lemma keeps_sockets_others {A} (fd : nat) (m : M A) :
  keeps_sockets m -> keeps_others fd m.
Proof. intros H w. apply socket_session_frame, H. Qed.

Lemma keeps_sockets_bind {A C} (m : M A) (k : A -> M C) :
  keeps_sockets m -> (forall a, keeps_sockets (k a)) -> keeps_sockets (bind m k).
Proof.
  intros Hm Hk w. unfold bind. specialize (Hm w).
  destruct (m w) as [a w1 | e w1 | w1]; cbn in *; auto.
  eapply socket_frame_trans; [exact Hm | apply Hk].
Qed.

Lemma keeps_others_bind {A C} (fd : nat) (m : M A) (k : A -> M C) :
  keeps_others fd m -> (forall a, keeps_others fd (k a)) ->
  keeps_others fd (bind m k).
Proof.
  intros Hm Hk w. unfold bind. specialize (Hm w).
  destruct (m w) as [a w1 | e w1 | w1]; cbn in *; auto.
  eapply session_frame_trans; [exact Hm | apply Hk].
Qed.

Lemma keeps_sockets_try_except {A} (c : exn -> bool) (m : M A)
    (h : exn -> M A) :
  keeps_sockets m -> (forall e, keeps_sockets (h e)) ->
  keeps_sockets (try_except c m h).
Proof.
  intros Hm Hh w. unfold try_except. specialize (Hm w).
  destruct (m w) as [a w1 | e w1 | w1]; cbn in *; auto.
  destruct (c e); cbn; auto.
  eapply socket_frame_trans; [exact Hm | apply Hh].
Qed.

Lemma keeps_others_try_except {A} (fd : nat) (c : exn -> bool) (m : M A)
    (h : exn -> M A) :
  keeps_others fd m -> (forall e, keeps_others fd (h e)) ->
  keeps_others fd (try_except c m h).
Proof.
  intros Hm Hh w. unfold try_except. specialize (Hm w).
  destruct (m w) as [a w1 | e w1 | w1]; cbn in *; auto.
  destruct (c e); cbn; auto.
  eapply session_frame_trans; [exact Hm | apply Hh].
Qed.

Lemma keeps_others_try_finally {A} (fd : nat) (m : M A) (f : M unit) :
  keeps_others fd m -> keeps_others fd f -> keeps_others fd (try_finally m f).
Proof.
  intros Hm Hf w. unfold try_finally. specialize (Hm w).
  destruct (m w) as [a w1 | e w1 | w1]; cbn in *; auto.
  - eapply session_frame_trans; [exact Hm |].
    apply (keeps_others_bind fd f (fun _ => ret a)); [exact Hf |].
    intros _ v. apply session_frame_refl.
  - eapply session_frame_trans; [exact Hm |].
    apply (keeps_others_bind fd f (fun _ => raise e)); [exact Hf |].
    intros _ v. apply session_frame_refl.
Qed.

Lemma keeps_others_while_true {A} (fd : nat) (fuel : nat) (body : M unit) :
  keeps_others fd body -> keeps_others fd (while_true (A := A) fuel body).
Proof.
  intros Hb. induction fuel as [| fuel IH].
  - intros w. apply session_frame_refl.
  - cbn [while_true]. apply keeps_others_bind; auto.
Qed.

Lemma keeps_sockets_ret {A} (a : A) : keeps_sockets (ret a).
Proof. intros w. apply socket_frame_refl. Qed.

Lemma keeps_sockets_raise {A} (e : exn) : keeps_sockets (raise (A := A) e).
Proof. intros w. apply socket_frame_refl. Qed.

Lemma keeps_sockets_print (s : string) : keeps_sockets (print s).
Proof. intros w. repeat split. Qed.

Lemma keeps_sockets_time_sleep (d : Q) : keeps_sockets (time_sleep d).
Proof. intros w. repeat split. Qed.

Lemma keeps_sockets_timestamp_ms : keeps_sockets timestamp_ms.
Proof. intros w. repeat split. Qed.

Lemma keeps_sockets_random_uniform (a b : Q) :
  keeps_sockets (random_uniform a b).
Proof. intros w. repeat split. Qed.

Lemma keeps_sockets_target_field (key : string) :
  keeps_sockets (target_field key).
Proof.
  intros w. unfold target_field.
  destruct (target_location w !! key); apply socket_frame_refl.
Qed.

Lemma keeps_sockets_json_dumps (v : pyval) : keeps_sockets (json_dumps v).
Proof.
  intros w. unfold json_dumps. destruct (json_value v); apply socket_frame_refl.
Qed.

Lemma keeps_sockets_subscript (v : pyval) (key : string) :
  keeps_sockets (subscript v key).
Proof.
  intros w. unfold subscript.
  destruct v; try apply socket_frame_refl.
  destruct (dict_lookup key d); apply socket_frame_refl.
Qed.

Lemma keeps_sockets_get_method (v : pyval) (key : string) (dflt : pyval) :
  keeps_sockets (get_method v key dflt).
Proof. intros w. destruct v; apply socket_frame_refl. Qed.

Ltac keeps :=
  repeat first
    [ apply keeps_sockets_bind; [| intros ?]
    | apply keeps_sockets_try_except; [| intros ?]
    | apply keeps_sockets_ret
    | apply keeps_sockets_raise
    | apply keeps_sockets_print
    | apply keeps_sockets_time_sleep
    | apply keeps_sockets_timestamp_ms
    | apply keeps_sockets_random_uniform
    | apply keeps_sockets_target_field
    | apply keeps_sockets_json_dumps
    | apply keeps_sockets_subscript
    | apply keeps_sockets_get_method ].

Lemma keeps_sockets_generate_random_gps :
  keeps_sockets gps_pc.generate_random_gps.
Proof. unfold gps_pc.generate_random_gps. keeps. Qed.

Lemma keeps_sockets_get_android_gps :
  keeps_sockets gps_android.get_android_gps.
Proof.
  unfold gps_android.get_android_gps, gps_android.read_sensor,
    gps_android.fallback.
  keeps.
  - intros w. unfold gps_android.check_output_termux_location.
    destruct (termux_location w (termux_runs w)); repeat split.
  - intros w. unfold gps_android.decode.
    destruct (decode_utf8 _); apply socket_frame_refl.
  - intros w. unfold gps_android.loads.
    destruct (json_loads _); apply socket_frame_refl.
Qed.

Lemma keeps_sockets_poll (s : script) : keeps_sockets (poll_of s).
Proof.
  destruct s; [apply keeps_sockets_generate_random_gps
              | apply keeps_sockets_get_android_gps].
Qed.

Lemma keeps_others_socket_send (fd : nat) (msg : json) :
  keeps_others fd (socket_send fd msg).
Proof.
  intros w. unfold socket_send.
  destruct (sockets w !! fd) as [s |]; [| apply session_frame_refl].
  destruct (sock_open s); [| apply session_frame_refl].
  destruct (send_error w fd (sock_calls s));
    (split; [| repeat split]); intros fd' Hne; cbn;
    now rewrite lookup_insert_ne.
Qed.

Lemma keeps_others_socket_close (fd : nat) : keeps_others fd (socket_close fd).
Proof.
  intros w. split; [| repeat split]. intros fd' Hne. cbn.
  now rewrite lookup_alter_ne.
Qed.

Lemma keeps_others_send_update (s : script) (fd : nat) :
  keeps_others fd (send_update (poll_of s) (pause_of s) fd).
Proof.
  unfold send_update.
  apply keeps_others_bind; [apply keeps_sockets_others, keeps_sockets_poll |].
  intros p.
  apply keeps_others_bind;
    [apply keeps_sockets_others, keeps_sockets_json_dumps |].
  intros j.
  apply keeps_others_bind; [apply keeps_sockets_others; cbn; keeps |].
  intros _.
  apply keeps_others_bind; [apply keeps_others_socket_send |].
  intros _. apply keeps_sockets_others, keeps_sockets_time_sleep.
Qed.

Lemma keeps_others_handle_client (s : script) (fuel fd : nat) :
  keeps_others fd (handle_client_of s fuel fd).
Proof.
  assert (keeps_others fd
            (handle_client_with (poll_of s) (pause_of s) fuel fd)) as H.
  { unfold handle_client_with.
    apply keeps_others_try_finally; [| apply keeps_others_socket_close].
    apply keeps_others_try_except.
    - apply keeps_others_bind;
        [apply keeps_sockets_others, keeps_sockets_print |].
      intros _. apply keeps_others_while_true, keeps_others_send_update.
    - intros e. apply keeps_sockets_others, keeps_sockets_print. }
  destruct s; exact H.
Qed.


Lemma while_true_raise {A} (k fuel : nat) (body : M unit) (w wk wk' : world)
    (e : exn) :
  turns k body w = Some wk ->
  body wk = Raise e wk' ->
  (k < fuel)%nat ->
  while_true (A := A) fuel body w = Raise e wk'.
Proof.
  revert fuel w. induction k as [| k IH]; intros fuel w Hk He Hlt;
    (destruct fuel as [| fuel]; [lia |]); cbn [while_true turns] in *;
    unfold bind.
  - injection Hk as ->. now rewrite He.
  - destruct (body w) as [[] w1 | |]; try discriminate.
    apply IH; [exact Hk | exact He | lia].
Qed.

(** A turn that raises has delivered nothing, and has called [send] once
    at most. *)
Lemma send_update_raise (s : script) (fd : nat) (w w' : world) (e : exn)
    (sk : socket) :
  send_update (poll_of s) (pause_of s) fd w = Raise e w' ->
  sockets w !! fd = Some sk ->
  exists sk',
    sockets w' !! fd = Some sk' /\
    sock_open sk' = sock_open sk /\
    sock_sent sk' = sock_sent sk /\
    (sock_calls sk <= sock_calls sk' <= S (sock_calls sk))%nat.
Proof.
  intros Hrun Hsk. unfold send_update, bind in Hrun.
  pose proof (keeps_sockets_poll s w) as (Hs & He & _).
  destruct (poll_of s w) as [p w1 | e1 w1 | w1]; cbn in Hs, He;
    [| injection Hrun as <- <-; rewrite Hs; eauto 10 | discriminate].
  unfold json_dumps in Hrun.
  destruct (json_value p) as [j |]; cbn in Hrun;
    [| injection Hrun as <- <-; rewrite Hs; eauto 10].
  unfold socket_send in Hrun. rewrite Hs, Hsk in Hrun.
  destruct (sock_open sk) eqn:Hopen;
    [| injection Hrun as <- <-; rewrite Hs; eauto 10].
  destruct (send_error w1 fd (sock_calls sk));
    [| discriminate].
  injection Hrun as <- <-. cbn. rewrite lookup_insert_eq.
  eexists. split; [reflexivity |]. cbn. repeat split; auto.
Qed.

(** C8. In either script, when some turns of a session's loop have gone
    through and the next one raises an [Exception], in the poll, in the
    serialization or in the write, [handle_client] returns: the loop is
    over, the error is printed, the session's socket is closed with nothing
    more delivered on it and one [send] call at most since the last good
    turn, and the other connections, the listening socket and the registry
    are as they were. *)
Theorem session_failure_is_local (s : script) (fuel k fd : nat)
    (w wk wk' : world) (e : exn) :
  (k < fuel)%nat ->
  turns k (send_update (poll_of s) (pause_of s) fd)
    (world_of (print "[*] Client connected, sending GPS data..." w))
  = Some wk ->
  send_update (poll_of s) (pause_of s) fd wk = Raise e wk' ->
  is_Exception e = true ->
  exists w',
    handle_client_of s fuel fd w = Return tt w' /\
    stdout w'
    = (stdout wk' ++ [("Connection closed: " ++ str_of_exn e ++ newline)%string])%list /\
    (forall sk,
        sockets wk !! fd = Some sk ->
        exists sk',
          sockets w' !! fd = Some sk' /\
          sock_open sk' = false /\
          sock_sent sk' = sock_sent sk /\
          (sock_calls sk <= sock_calls sk' <= S (sock_calls sk))%nat) /\
    session_frame fd w w'.
Proof.
  intros Hlt Hk He Hexn.
  assert (handle_client_of s fuel fd w
          = Return tt
              (world_of
                 (socket_close fd
                    (world_of
                       (print ("Connection closed: " ++ str_of_exn e) wk')))))
    as Hrun.
  { assert (handle_client_of s fuel fd w
            = handle_client_with (poll_of s) (pause_of s) fuel fd w) as ->
      by (destruct s; reflexivity).
    cbn [print world_of] in Hk.
    cbv [handle_client_with try_finally try_except bind print].
    rewrite (while_true_raise k fuel _ _ wk wk' e Hk He Hlt).
    rewrite Hexn. reflexivity. }
  eexists. split; [exact Hrun |]. split; [reflexivity |]. split.
  - intros sk Hsk.
    destruct (send_update_raise s fd wk wk' e sk He Hsk)
      as (sk' & Hsk' & Ho & Hs & Hc).
    cbn. rewrite lookup_alter_eq, Hsk'. cbn. eauto.
  - pose proof (keeps_others_handle_client s fuel fd w) as Hf.
    rewrite Hrun in Hf. exact Hf.
Qed.









End Session_facts.

(** ** Threads *)

Section Thread_facts.
Context `{B : Builtins}.
Import Interleaving.

Lemma start_inv (w : world) :
  target_location w = initial_target_location -> thread_inv (start w).
Proof.
  intros Hw. split; [reflexivity |]. split; [now apply reach_init |].
  intros n vs i v Hn. cbn in Hn. now rewrite lookup_empty in Hn.
Qed.

Lemma write_with_inv (op : M unit) (st st' : state) :
  (forall w w', op w = Return tt w' -> reachable any_value w ->
                reachable any_value w') ->
  thread_inv st -> write_with op st = Some st' -> thread_inv st'.
Proof.
  intros Hop (Hlast & Hr & Hreads). unfold write_with.
  destruct (op (st_world st)) as [[] w' | |] eqn:E; try discriminate.
  intros [= <-]. unfold thread_inv. cbn. split; [apply last_snoc |].
  split; [eapply Hop; eauto |].
  intros n vs i v Hn Hi.
  destruct (Hreads n vs i v Hn Hi) as (t & key & Ht & Hk & Hv).
  exists t, key. rewrite elem_of_app. auto.
Qed.

Lemma step_inv (ev : event) (st st' : state) :
  thread_inv st -> step ev st = Some st' -> thread_inv st'.
Proof.
  destruct ev as [lat lon alt | | n]; cbn [step].
  - apply write_with_inv. intros w w' Hw Hr.
    eapply reach_set; eauto; exact I.
  - apply write_with_inv. intros w w' Hw Hr. eapply reach_clear; eauto.
  - intros (Hlast & Hr & Hreads).
    destruct (target_keys !! length (default [] (st_reads st !! n)))
      as [key |] eqn:Hkey; [| discriminate].
    unfold target_field.
    destruct (target_location (st_world st) !! key) as [v |] eqn:Hv;
      [| discriminate].
    intros [= <-]. unfold thread_inv. cbn.
    split; [exact Hlast |]. split; [exact Hr |].
    intros m vs i x Hm Hi.
    destruct (decide (m = n)) as [-> | Hne].
    + rewrite lookup_insert_eq in Hm. injection Hm as <-.
      apply lookup_app_Some in Hi as [Hi | [Hlen Hi]].
      * destruct (st_reads st !! n) as [sofar |] eqn:Hn; cbn in Hi.
        -- eapply Hreads; eauto.
        -- now rewrite lookup_nil in Hi.
      * destruct (i - length (default [] (st_reads st !! n)))%nat eqn:Hd;
          [| cbn in Hi; now rewrite ?lookup_nil in Hi].
        cbn in Hi. injection Hi as <-.
        assert (i = length (default [] (st_reads st !! n))) as -> by lia.
        exists (target_location (st_world st)), key.
        split; [| auto].
        apply last_Some in Hlast as [l' Hl]. rewrite Hl.
        rewrite elem_of_app, list_elem_of_singleton. auto.
    + rewrite lookup_insert_ne in Hm by auto. eapply Hreads; eauto.
Qed.

Lemma exec_inv (evs : list event) (st st' : state) :
  thread_inv st -> exec evs st = Some st' -> thread_inv st'.
Proof.
  revert st. induction evs as [| ev evs IH]; intros st Hinv; cbn [exec].
  - now intros [= <-].
  - destruct (step ev st) as [st1 |] eqn:E; [| discriminate].
    apply IH. eapply step_inv; eauto.
Qed.

Lemma read_step (st : state) (n : nat) (sofar : list pyval) (key : string)
    (v : pyval) :
  default [] (st_reads st !! n) = sofar ->
  target_keys !! length sofar = Some key ->
  target_location (st_world st) !! key = Some v ->
  step (ReadNext n) st
  = Some (State (st_world st) (<[n := (sofar ++ [v])%list]> (st_reads st))
                (st_written st)).
Proof.
  intros <- Hk Hv. cbn [step]. rewrite Hk. unfold target_field.
  now rewrite Hv.
Qed.

Lemma four_reads (st : state) (n : nat) (a b c d : pyval) :
  fields_of (target_location (st_world st)) = Some [a; b; c; d] ->
  st_reads st !! n = None ->
  exists st',
    exec (replicate 4 (ReadNext n)) st = Some st' /\
    st_reads st' !! n = Some [a; b; c; d] /\
    st_world st' = st_world st /\
    st_written st' = st_written st.
Proof.
  intros Hf Hn. apply fields_of_lookup in Hf as (Ha & Hb & Hc & Hd).
  cbn [replicate exec].
  rewrite (read_step st n [] "latitude" a)
    by (try rewrite Hn; auto).
  rewrite (read_step _ n [a] "longitude" b)
    by (cbn [st_reads st_world]; try rewrite lookup_insert_eq; auto).
  rewrite (read_step _ n [a; b] "altitude" c)
    by (cbn [st_reads st_world]; try rewrite lookup_insert_eq; auto).
  rewrite (read_step _ n [a; b; c] "isSet" d)
    by (cbn [st_reads st_world]; try rewrite lookup_insert_eq; auto).
  eexists. split; [reflexivity |].
  cbn [st_reads st_world st_written]. rewrite lookup_insert_eq. auto.
Qed.

(** The target fields of the packet a poll returns are the four fields of
    the registry. *)
Lemma poll_target_fields (s : script) (w w1 : world) (p a b c d : pyval) :
  fields_of (target_location w) = Some [a; b; c; d] ->
  poll_of s w = Return p w1 ->
  exists la lo al t v,
    p = PyDict
          [ ("latitude", la); ("longitude", lo); ("altitude", al);
            ("timestamp", t); ("valid", v);
            ("targetLatitude", a); ("targetLongitude", b);
            ("targetAltitude", c); ("hasTarget", d) ].
Proof.
  intros Hf Hp. destruct s; cbn [poll_of] in Hp.
  - rewrite (generate_random_gps_run w a b c d Hf) in Hp.
    injection Hp as <- <-. repeat eexists.
  - destruct (get_android_gps_packet w w1 p a b c d Hf Hp)
      as (la & lo & al & v & -> & _).
    repeat eexists.
Qed.

(** C4, as the code has it. Each writer call rebinds the global to a whole
    waypoint in one step, so in every interleaving each single field a
    poll has read is that field of some waypoint that was written; and a
    poll whose four reads run with no write in between reads exactly the
    waypoint the global is bound to, the four target fields of the packet
    it returns. The four reads are separate steps: nothing is said of a
    poll that a write cuts through. *)
Theorem reads_come_from_writes (w0 : world) (evs : list event) (st : state) :
  target_location w0 = initial_target_location ->
  exec evs (start w0) = Some st ->
  (forall n vs i v,
      st_reads st !! n = Some vs -> vs !! i = Some v ->
      exists t key,
        t ∈ st_written st /\ target_keys !! i = Some key /\
        t !! key = Some v) /\
  (forall n,
      st_reads st !! n = None ->
      exists st' a b c d,
        exec (replicate 4 (ReadNext n)) st = Some st' /\
        st_reads st' !! n = Some [a; b; c; d] /\
        fields_of (target_location (st_world st)) = Some [a; b; c; d] /\
        target_location (st_world st) ∈ st_written st /\
        forall s p w1,
          poll_of s (st_world st) = Return p w1 ->
          exists la lo al t v,
            p = PyDict
                  [ ("latitude", la); ("longitude", lo); ("altitude", al);
                    ("timestamp", t); ("valid", v);
                    ("targetLatitude", a); ("targetLongitude", b);
                    ("targetAltitude", c); ("hasTarget", d) ]).
Proof.
  intros Hw Hexec.
  destruct (exec_inv evs (start w0) st (start_inv w0 Hw) Hexec)
    as (Hlast & Hr & Hreads).
  split; [exact Hreads |].
  intros n Hn.
  destruct (reachable_fields _ _ Hr) as (a & b & c & d & Hf).
  destruct (four_reads st n a b c d Hf Hn) as (st' & He & Hn' & _ & _).
  exists st', a, b, c, d.
  split; [exact He |]. split; [exact Hn' |]. split; [exact Hf |]. split.
  - apply last_Some in Hlast as [l' Hl]. rewrite Hl.
    rewrite elem_of_app, list_elem_of_singleton. auto.
  - intros s p w1. now apply poll_target_fields.
Qed.

End Thread_facts.

(** ** The properties at work on the sample environment *)

(** C4, as the claim states it, fails: in [torn_run] the poll of session 0
    ends with latitude [None] next to longitude 2, altitude 3 and
    [isSet = True], a waypoint that was never written. *)
Lemma torn_snapshot : ~ Interleaving.snapshots_atomic.
Proof.
  intros H.
  destruct (H sample_world torn_run _ 0%nat
              [ PyNone; PyFloat (Finite 2); PyFloat (Finite 3); PyBool true ]
              eq_refl eq_refl eq_refl eq_refl)
    as (t & Hin & Hf).
  change (t ∈ [ initial_target_location;
                {[ "latitude" := PyFloat (Finite 1);
                   "longitude" := PyFloat (Finite 2);
                   "altitude" := PyFloat (Finite 3);
                   "isSet" := PyBool true ]} ]) in Hin.
  apply elem_of_cons in Hin as [-> | Hin].
  - unfold initial_target_location in Hf.
    rewrite fields_of_waypoint in Hf. discriminate.
  - apply list_elem_of_singleton in Hin as ->.
    rewrite fields_of_waypoint in Hf. discriminate.
Qed.

Lemma reads_come_from_writes_witness :
  target_location sample_world = initial_target_location /\
  exists st,
    Interleaving.exec torn_run (Interleaving.start sample_world) = Some st /\
    (forall n vs i v,
        Interleaving.st_reads st !! n = Some vs -> vs !! i = Some v ->
        exists t key,
          t ∈ Interleaving.st_written st /\
          Interleaving.target_keys !! i = Some key /\
          t !! key = Some v).
Proof.
  split; [reflexivity |]. eexists. split; [reflexivity |].
  exact (proj1 (reads_come_from_writes sample_world torn_run _
                  eq_refl eq_refl)).
Defined.



Lemma android_poll_recovers_witness :
  reachable any_value sample_world /\
  (forall e, termux_location sample_world (termux_runs sample_world) = inl e ->
             is_Exception e = true) /\
  gps_android.sensor_failed sample_world = true /\
  exists packet w',
    gps_android.get_android_gps sample_world = Return packet w' /\
    stdout w' = ["Error getting GPS data: ?" ++ newline].
Proof.
  assert (reachable any_value sample_world) as Hr
    by (apply reach_init; reflexivity).
  assert (forall e,
             termux_location sample_world (termux_runs sample_world) = inl e ->
             is_Exception e = true) as He
    by (intros e [= <-]; reflexivity).
  split; [exact Hr |]. split; [exact He |]. split; [reflexivity |].
  destruct (android_poll_recovers any_value sample_world Hr He)
    as (packet & w' & Hrun & Hfail).
  exists packet, w'. split; [exact Hrun |].
  destruct (Hfail eq_refl) as (e & a & b & c & d & _ & _ & ->). reflexivity.
Defined.


Lemma extra_tokens_are_ignored_witness :
  stdin (set_stdin ["y"; "1 2 3 4"] sample_world) = ["y"; "1 2 3 4"] /\
  lower "y" ∈ ["y"; "yes"] /\
  split (strip "1 2 3 4") = ["1"; "2"; "3"; "4"] /\
  exists w',
    console_turn (set_stdin ["y"; "1 2 3 4"] sample_world) = Return tt w' /\
    target_location w'
    = {[ "latitude" := PyFloat (Finite 1); "longitude" := PyFloat (Finite 2);
         "altitude" := PyFloat (Finite 3); "isSet" := PyBool true ]}.
Proof.
  assert (lower "y" ∈ ["y"; "yes"]) as Hy by (apply list_elem_of_here).
  split; [reflexivity |]. split; [exact Hy |]. split; [reflexivity |].
  destruct (extra_tokens_are_ignored
              (set_stdin ["y"; "1 2 3 4"] sample_world) "y" "1 2 3 4" []
              (Finite 1) (Finite 2) (PyFloat (Finite 3))
              eq_refl Hy)
    as (w' & Hrun & Ht & _); try reflexivity.
  - vm_compute; lia.
  - exists w'. split; [exact Hrun | exact Ht].
Defined.

Lemma session_failure_is_local_witness :
  exists wk wk' e,
    turns 2 (send_update (poll_of gps_pc_py) (pause_of gps_pc_py) 4)
      (world_of (print "[*] Client connected, sending GPS data..."
                   sample_world))
    = Some wk /\
    send_update (poll_of gps_pc_py) (pause_of gps_pc_py) 4 wk = Raise e wk' /\
    is_Exception e = true /\
    exists w',
      handle_client_of gps_pc_py 5 4 sample_world = Return tt w' /\
      session_frame 4 sample_world w'.
Proof.
  eexists _, _, _.
  split; [vm_compute; reflexivity |].
  split; [vm_compute; reflexivity |].
  split; [reflexivity |].
  edestruct (session_failure_is_local gps_pc_py 5 2 4 sample_world)
    as (w' & Hrun & _ & _ & Hframe);
    [| vm_compute; reflexivity | vm_compute; reflexivity | reflexivity
     | exists w'; split; [exact Hrun | exact Hframe] ].
  lia.
Defined.


(** A target that cannot be serialized ends the session at its first turn:
    nothing is sent, the socket is closed, the other connection stays as it
    was. *)
Example serialization_error_ends_session :
  exists w',
    handle_client_of gps_pc_py 3 4 sample_bytes_world = Return tt w' /\
    sockets w' !! 4%nat = Some (Socket false [] 0) /\
    sockets w' !! 5%nat = sockets sample_bytes_world !! 5%nat /\
    listening w' = true.
Proof. eexists. repeat split; vm_compute; reflexivity. Qed.

(** The live poll on output that parses: the reading is passed on, and an
    altitude the command did not report is [0]. *)
Example android_poll_reads_sensor :
  exists w',
    gps_android.get_android_gps
      (World initial_target_location [] [] 1700000000 (fun _ => 0%Q) 0
             (fun _ => inr [Byte.x7b; Byte.x7d]) 0 ∅ (fun _ _ => None) true)
    = Return
        (PyDict
           [ ("latitude", PyFloat (Finite (6341 # 100)));
             ("longitude", PyFloat (Finite (105 # 10)));
             ("altitude", PyInt 0);
             ("timestamp", PyInt 1700000000000);
             ("valid", PyBool true);
             ("targetLatitude", PyNone);
             ("targetLongitude", PyNone);
             ("targetAltitude", PyInt 0);
             ("hasTarget", PyBool false) ]) w'.
Proof. eexists. vm_compute. reflexivity. Qed.

(** * More of the scripts *)

(** ** The console: the other commands, the end of input *)

Section Console_more.
Context `{B : Builtins}.


(** What a turn does once the command line is read and is not [y]/[yes] *)
Lemma console_turn_other (w : world) (cmd : string) (rest : list string) :
  stdin w = cmd :: rest ->
  lower cmd ∉ ["y"; "yes"] ->
  console_turn w
  = (if bool_decide (lower cmd = "clear") then
       clear_target_location ;;; print "[*] Target location cleared"
     else if bool_decide (lower cmd = "help") then print_help
     else print "[!] Unknown command. Type 'help' for available commands.")
      (set_stdin rest
         (set_stdout
            (stdout w ++ [newline ++ "[?] Enter command (y/clear/help): "])
            w)).
Proof.
  intros Hin Hcmd.
  unfold console_turn, try_except, bind at 1 2, print_noend, input.
  cbn [stdin set_stdout]. rewrite Hin. cbv beta iota.
  rewrite bool_decide_eq_false_2 by exact Hcmd.
  destruct (bool_decide (lower cmd = "clear")); [reflexivity |].
  destruct (bool_decide (lower cmd = "help")); reflexivity.
Qed.

(** X1. The command [clear], in any letter case, rebinds the registry to
    the cleared waypoint, takes one line of input, and prints the line
    "[*] Target location cleared" twice: once in [clear_target_location],
    once more in the console. *)
Theorem clear_command (w : world) (cmd : string) (rest : list string) :
  stdin w = cmd :: rest ->
  lower cmd = "clear" ->
  exists w',
    console_turn w = Return tt w' /\
    target_location w' = initial_target_location /\
    stdin w' = rest /\
    stdout w'
    = (stdout w
       ++ [ (newline ++ "[?] Enter command (y/clear/help): ")%string;
            ("[*] Target location cleared" ++ newline)%string;
            ("[*] Target location cleared" ++ newline)%string ])%list.
Proof.
  intros Hin Hcmd.
  rewrite (console_turn_other w cmd rest Hin)
    by (rewrite Hcmd; intros H; repeat (apply elem_of_cons in H as [[=] | H]);
        now apply elem_of_nil in H).
  rewrite bool_decide_eq_true_2 by exact Hcmd.
  eexists. split; [reflexivity |]. split; [reflexivity |].
  split; [reflexivity |]. cbn [stdout set_stdout set_stdin set_target].
  now rewrite <- !app_assoc.
Qed.

Lemma not_yes (cmd : string) :
  cmd <> "y" -> cmd <> "yes" -> cmd ∉ ["y"; "yes"].
Proof.
  intros H1 H2 H. apply elem_of_cons in H as [-> | H]; [now apply H1 |].
  apply list_elem_of_singleton in H. now apply H2.
Qed.

(** X2. The command [help], in any letter case, prints the heading and
    the four command lines, takes one line of input and leaves the registry
    as it was. *)
Theorem help_command (w : world) (cmd : string) (rest : list string) :
  stdin w = cmd :: rest ->
  lower cmd = "help" ->
  exists w',
    console_turn w = Return tt w' /\
    target_location w' = target_location w /\
    stdin w' = rest /\
    stdout w'
    = (stdout w
       ++ [ (newline ++ "[?] Enter command (y/clear/help): ")%string;
            (newline ++ "Commands:" ++ newline)%string;
            ("  y, yes          - Set a target location" ++ newline)%string;
            ("  clear           - Remove existing target" ++ newline)%string;
            ("  help            - Show this help" ++ newline)%string;
            ("  Ctrl+C          - Exit the server" ++ newline)%string ])%list.
Proof.
  intros Hin Hcmd.
  rewrite (console_turn_other w cmd rest Hin)
    by (rewrite Hcmd; apply not_yes; discriminate).
  rewrite Hcmd. cbn [bool_decide]. 
  rewrite bool_decide_eq_false_2 by discriminate.
  rewrite bool_decide_eq_true_2 by reflexivity.
  eexists. split; [reflexivity |]. split; [reflexivity |].
  split; [reflexivity |]. cbn [stdout set_stdout set_stdin set_target].
  rewrite <- !app_assoc. reflexivity.
Qed.

(** X3. A line that, lowercased, is none of [y], [yes], [clear], [help]
    is answered with the unknown-command message; it is taken as it was
    typed, white space included, so [y] followed by a space is unknown. The
    registry is left as it was. *)
Theorem unknown_command (w : world) (cmd : string) (rest : list string) :
  stdin w = cmd :: rest ->
  lower cmd ∉ ["y"; "yes"; "clear"; "help"] ->
  exists w',
    console_turn w = Return tt w' /\
    target_location w' = target_location w /\
    stdin w' = rest /\
    stdout w'
    = (stdout w
       ++ [ (newline ++ "[?] Enter command (y/clear/help): ")%string;
            ("[!] Unknown command. Type 'help' for available commands."
             ++ newline)%string ])%list.
Proof.
  intros Hin Hcmd.
  assert (lower cmd <> "y" /\ lower cmd <> "yes" /\ lower cmd <> "clear" /\
          lower cmd <> "help") as (H1 & H2 & H3 & H4).
  { repeat split; intros E; apply Hcmd; rewrite E;
      repeat first [apply list_elem_of_here | apply list_elem_of_further]. }
  rewrite (console_turn_other w cmd rest Hin) by now apply not_yes.
  rewrite !bool_decide_eq_false_2 by assumption.
  eexists. split; [reflexivity |]. split; [reflexivity |].
  split; [reflexivity |]. cbn [stdout set_stdout set_stdin set_target].
  rewrite <- !app_assoc. reflexivity.
Qed.

Lemma lower_char_idempotent (c : Ascii.ascii) :
  lower_char (lower_char c) = lower_char c.
Proof. destruct c as [[] [] [] [] [] [] [] []]; reflexivity. Qed.

Lemma lower_idempotent (s : string) : lower (lower s) = lower s.
Proof.
  induction s as [| c s IH]; [reflexivity |].
  cbn [lower]. now rewrite lower_char_idempotent, IH.
Qed.

(** X4. The console reads its command through [lower()] only: a turn on a
    command line does what the turn on the lowercased line does. *)
Theorem commands_ignore_case (w : world) (cmd : string) (rest : list string) :
  stdin w = cmd :: rest ->
  console_turn w = console_turn (set_stdin (lower cmd :: rest) w).
Proof.
  intros Hin.
  cbv [console_turn try_except bind print_noend input].
  cbn [stdin set_stdout set_stdin]. rewrite Hin. cbv beta iota.
  rewrite lower_idempotent. reflexivity.
Qed.


Lemma console_turn_eof (w : world) :
  stdin w = [] ->
  console_turn w
  = Return tt
      (set_stdout
         (stdout w
          ++ [ (newline ++ "[?] Enter command (y/clear/help): ")%string;
               (("[!] Error: " ++ str_of_exn EOFError) ++ newline)%string ])
         w).
Proof.
  intros Hin.
  cbv [console_turn try_except bind print_noend input].
  cbn [stdin set_stdout]. rewrite Hin. cbn [is_Exception].
  unfold print. same_world.
Qed.

(** X5. Once standard input is at its end the loop does not stop: every
    turn prints the prompt and the line "[!] Error: ..." of the [EOFError],
    with no pause, and the registry stays as it was. *)
Theorem end_of_input_spins (fuel : nat) (w : world) :
  stdin w = [] ->
  exists w',
    handle_user_input fuel w = Running w' /\
    target_location w' = target_location w /\
    stdout w'
    = (stdout w
       ++ concat
            (replicate fuel
               [ (newline ++ "[?] Enter command (y/clear/help): ")%string;
                 (("[!] Error: " ++ str_of_exn EOFError)
                  ++ newline)%string ]))%list.
Proof.
  revert w. induction fuel as [| fuel IH]; intros w Hin.
  - exists w. cbn. now rewrite app_nil_r.
  - rewrite (handle_user_input_next fuel w _ (console_turn_eof w Hin)).
    destruct (IH (set_stdout
                    (stdout w
                     ++ [ (newline ++ "[?] Enter command (y/clear/help): ")%string;
                          (("[!] Error: " ++ str_of_exn EOFError)
                           ++ newline)%string ]) w) Hin)
      as (w' & Hrun & Ht & Hout).
    exists w'. split; [exact Hrun |]. split; [exact Ht |].
    rewrite Hout. cbn [stdout set_stdout replicate concat].
    now rewrite <- !app_assoc.
Qed.

Lemma console_turn_eof_at_coordinates (w : world) (cmd : string) :
  stdin w = [cmd] ->
  lower cmd ∈ ["y"; "yes"] ->
  console_turn w
  = Return tt
      (set_stdout
         (stdout w
          ++ [ (newline ++ "[?] Enter command (y/clear/help): ")%string;
               "[?] Enter target coordinates (lat lon [alt]): ";
               (("[!] Error: " ++ str_of_exn EOFError) ++ newline)%string ])
         (set_stdin [] w)).
Proof.
  intros Hin Hcmd.
  cbv [console_turn try_except bind print_noend input].
  cbn [stdin set_stdout]. rewrite Hin. cbv beta iota.
  rewrite bool_decide_eq_true_2 by exact Hcmd.
  cbv [read_coordinates bind print_noend input].
  cbn [stdin set_stdout set_stdin is_ValueError is_Exception].
  same_world.
Qed.

(** X6. When the input ends at the coordinate prompt, the [EOFError] is
    not a [ValueError]: it passes the inner handler and is reported by the
    outer one as "[!] Error: ...", not as invalid coordinates; the registry
    is left as it was. *)
Theorem end_of_input_at_coordinates (w : world) (cmd : string) :
  stdin w = [cmd] ->
  lower cmd ∈ ["y"; "yes"] ->
  exists w',
    console_turn w = Return tt w' /\
    target_location w' = target_location w /\
    stdout w'
    = (stdout w
       ++ [ (newline ++ "[?] Enter command (y/clear/help): ")%string;
            "[?] Enter target coordinates (lat lon [alt]): ";
            (("[!] Error: " ++ str_of_exn EOFError) ++ newline)%string ])%list.
Proof.
  intros Hin Hcmd. eexists.
  split; [exact (console_turn_eof_at_coordinates w cmd Hin Hcmd) |].
  split; reflexivity.
Qed.

(** After a turn the registry is as it was, or cleared, or set to two
    floats with an altitude that is a float or the integer 0. *)
Lemma console_turn_target (w : world) :
  let t := target_location (world_of (console_turn w)) in
  t = target_location w \/
  t = initial_target_location \/
  exists lat lon alt,
    (alt = PyInt 0 \/ exists f, alt = PyFloat f) /\
    t = {[ "latitude" := PyFloat lat; "longitude" := PyFloat lon;
           "altitude" := alt; "isSet" := PyBool true ]}.
Proof.
  destruct (stdin w) as [| cmd more] eqn:Hin.
  - rewrite (console_turn_eof w Hin). now left.
  - destruct (decide (lower cmd ∈ ["y"; "yes"])) as [Hy | Hy].
    + destruct more as [| line rest].
      * rewrite (console_turn_eof_at_coordinates w cmd Hin Hy). now left.
      * rewrite (console_turn_yes w cmd line rest Hin Hy).
        unfold try_except.
        destruct (le_lt_dec 2 (length (split (strip line)))) as [Hl | Hl].
        -- rewrite (read_coordinates_long _ line rest)
             by (reflexivity || exact Hl).
           cbv zeta.
           destruct (float_at _ 0) as [lat |]; [| now left].
           destruct (float_at _ 1) as [lon |]; [| now left].
           destruct (altitude_of _) as [alt |] eqn:Ha; [| now left].
           right. right. exists lat, lon, alt. split; [| reflexivity].
           unfold altitude_of in Ha.
           destruct (split (strip line) !! 2%nat) as [p |].
           ++ destruct (float_of_str p) as [f |]; [| discriminate].
              injection Ha as <-. eauto.
           ++ injection Ha as <-. now left.
        -- rewrite (read_coordinates_short _ line rest)
             by (reflexivity || exact Hl).
           now left.
    + rewrite (console_turn_other w cmd more Hin Hy).
      destruct (bool_decide (lower cmd = "clear")); [right; now left |].
      destruct (bool_decide (lower cmd = "help")); now left.
Qed.

Lemma console_turn_reachable (P : pyval -> Prop) (w : world) :
  (forall f, P (PyFloat f)) ->
  reachable P w -> reachable P (world_of (console_turn w)).
Proof.
  intros HP Hr.
  destruct (console_turn_target w) as [Ht | [Ht | (lat & lon & alt & _ & Ht)]].
  - eapply reach_other; eauto.
  - eapply reach_other; [eapply reach_clear; [exact Hr | apply clear_target_location_run] |].
    now rewrite Ht.
  - destruct (set_target_location_run (PyFloat lat) (PyFloat lon) (Some alt) w)
      as [out Hrun].
    eapply reach_other; [eapply reach_set; [exact Hr | | | exact Hrun]; apply HP |].
    now rewrite Ht.
Qed.

(** X7. Whatever the operator types, the console keeps the registry in a
    state reached with numbers for coordinates: it stores what [float]
    returned, or clears. *)
Theorem console_stores_numbers_only (fuel : nat) (w : world) :
  reachable is_number w ->
  reachable is_number (world_of (handle_user_input fuel w)).
Proof.
  revert w. induction fuel as [| fuel IH]; intros w Hr; [exact Hr |].
  destruct (console_turn_returns w) as [w1 H1].
  rewrite (handle_user_input_next fuel w w1 H1). apply IH.
  pose proof (console_turn_reachable is_number w (fun _ => I) Hr) as Hr1.
  now rewrite H1 in Hr1.
Qed.

End Console_more.

(** ** The coordinate line *)

Lemma split_lstrip (s : string) : split (lstrip s) = split s.
Proof.
  unfold split. induction s as [| c s IH]; [reflexivity |].
  cbn [lstrip]. destruct (is_space c) eqn:Hc.
  - cbn [split_from]. now rewrite Hc.
  - reflexivity.
Qed.

Lemma split_from_spaces (tok : list Ascii.ascii) (ws : list Ascii.ascii) :
  Forall (fun c => is_space c = true) ws ->
  split_from tok (String.string_of_list_ascii ws)
  = match tok with
    | [] => []
    | _ => [String.string_of_list_ascii (rev tok)]
    end.
Proof.
  intros H. revert tok. induction H as [| c ws Hc Hws IH]; intros tok.
  - reflexivity.
  - cbn [String.string_of_list_ascii split_from]. rewrite Hc, (IH []).
    reflexivity.
Qed.

Lemma string_of_list_ascii_app (l1 l2 : list Ascii.ascii) :
  String.string_of_list_ascii (l1 ++ l2)
  = (String.string_of_list_ascii l1 ++ String.string_of_list_ascii l2)%string.
Proof.
  induction l1 as [| c l1 IH]; [reflexivity |].
  change (String c (String.string_of_list_ascii (l1 ++ l2))
          = String c (String.string_of_list_ascii l1
                      ++ String.string_of_list_ascii l2)%string).
  now rewrite IH.
Qed.

Lemma split_from_app_spaces (tok : list Ascii.ascii) (s : string)
    (ws : list Ascii.ascii) :
  Forall (fun c => is_space c = true) ws ->
  split_from tok (s ++ String.string_of_list_ascii ws)%string
  = split_from tok s.
Proof.
  intros H. revert tok. induction s as [| c s IH]; intros tok.
  - change (split_from tok (String.string_of_list_ascii ws)
            = split_from tok EmptyString).
    now rewrite (split_from_spaces tok ws H).
  - change (split_from tok
              (String c (s ++ String.string_of_list_ascii ws)%string)
            = split_from tok (String c s)).
    cbn [split_from]. now rewrite !IH.
Qed.

(** What [lstrip] removes is white space. *)
Lemma lstrip_spaces (s : string) :
  exists ws,
    Forall (fun c => is_space c = true) ws /\
    String.list_ascii_of_string s
    = (ws ++ String.list_ascii_of_string (lstrip s))%list.
Proof.
  induction s as [| c s (ws & Hws & E)].
  - exists []. split; [constructor | reflexivity].
  - cbn [lstrip]. destruct (is_space c) eqn:Hc.
    + exists (c :: ws). split; [now constructor |]. cbn. now rewrite E.
    + exists []. split; [constructor | reflexivity].
Qed.

Lemma rstrip_spaces (s : string) :
  exists ws,
    Forall (fun c => is_space c = true) ws /\
    s = (rstrip s ++ String.string_of_list_ascii ws)%string.
Proof.
  unfold rstrip.
  destruct (lstrip_spaces
              (String.string_of_list_ascii
                 (rev (String.list_ascii_of_string s)))) as (ws & Hws & E).
  rewrite String.list_ascii_of_string_of_list_ascii in E.
  exists (rev ws). split; [now apply Forall_rev |].
  rewrite <- string_of_list_ascii_app, <- rev_app_distr, <- E, rev_involutive.
  now rewrite String.string_of_list_ascii_of_string.
Qed.

Lemma split_rstrip (s : string) : split (rstrip s) = split s.
Proof.
  destruct (rstrip_spaces s) as (ws & Hws & E).
  rewrite E at 2. unfold split. now rewrite split_from_app_spaces.
Qed.

(** X8. The tokens of a coordinate line are the same with and without the
    [strip()] that precedes [split()]. *)
Theorem strip_before_split_is_redundant (s : string) :
  split (strip s) = split s.
Proof. unfold strip. now rewrite split_rstrip, split_lstrip. Qed.

(** ** Sessions that go on, sessions that end *)

Section Session_more.
Context `{B : Builtins}.


(** A loop of turns that all go through: the poll returns a packet that
    serializes, the socket is open and no [send] fails. *)
Lemma healthy_turns (poll : M pyval) (pause : Q) (fd : nat)
    (Inv : world -> Prop) (Sent : json -> Prop) (n : nat) :
  (forall w w',
      target_location w' = target_location w ->
      termux_location w' = termux_location w ->
      Inv w -> Inv w') ->
  (forall w,
      Inv w ->
      exists p j w1,
        poll w = Return p w1 /\ json_value p = Some j /\ Sent j /\
        socket_frame w w1 /\ termux_location w1 = termux_location w /\
        clock w1 = clock w) ->
  forall (w : world) (sk : socket),
    Inv w ->
    sockets w !! fd = Some sk ->
    sock_open sk = true ->
    (forall i, send_error w fd i = None) ->
    exists w' new,
      while_true (A := unit) n (send_update poll pause fd) w = Running w' /\
      sockets w' !! fd
      = Some (Socket true (sock_sent sk ++ new) (sock_calls sk + n)) /\
      length new = n /\ Forall Sent new /\
      (clock w' == clock w + inject_Z (Z.of_nat n) * pause)%Q /\
      session_frame fd w w'.
Proof.
  intros Hstable Hpoll. induction n as [| n IH]; intros w sk Hinv Hsk Hopen Herr.
  - exists w, []. split; [reflexivity |]. rewrite app_nil_r, Nat.add_0_r.
    split; [destruct sk; cbn in *; now subst |]. split; [reflexivity |].
    split; [constructor |].
    split; [cbn; ring | apply session_frame_refl].
  - destruct (Hpoll w Hinv) as (p & j & w1 & Hp & Hj & HS & (Hs1 & He1 & Hl1 & Ht1) & Htl1 & Hc1).
    set (sk1 := Socket true (sock_sent sk ++ [j]) (S (sock_calls sk))).
    set (w2 := set_clock (clock w1 + pause)%Q
                 (set_sockets (<[fd := sk1]> (sockets w1)) w1)).
    assert (send_update poll pause fd w = Return tt w2) as Hturn.
    { unfold send_update, bind. rewrite Hp. unfold json_dumps. rewrite Hj.
      cbn [ret DEBUG_MODE]. unfold socket_send.
      replace (sockets w1 !! fd) with (Some sk) by (now rewrite Hs1).
      rewrite Hopen, He1, Herr. reflexivity. }
    destruct (IH w2 sk1) as (w' & new & Hrun & Hsock & Hlen & Hall & Hclock & Hframe).
    { eapply Hstable; [.. | exact Hinv]; cbn; congruence. }
    { cbn. now rewrite lookup_insert_eq. }
    { reflexivity. }
    { intros i. cbn. rewrite He1. apply Herr. }
    exists w', (j :: new). cbn [while_true]. unfold bind. rewrite Hturn.
    split; [exact Hrun |]. split; [| split; [| split; [| split]]].
    + rewrite Hsock. cbn. f_equal. f_equal; [now rewrite <- app_assoc | lia].
    + cbn. now rewrite Hlen.
    + now constructor.
    + rewrite Hclock. cbn [clock set_clock w2]. rewrite Hc1.
      rewrite Nat2Z.inj_succ. unfold Z.succ. rewrite inject_Z_plus. ring.
    + eapply session_frame_trans; [| exact Hframe].
      repeat split; cbn; try congruence.
      intros fd' Hne. rewrite lookup_insert_ne by auto. now rewrite Hs1.
Qed.


(** The session as a whole, while its loop is going *)
Lemma handle_client_running (poll : M pyval) (pause : Q) (fuel fd : nat)
    (w w' : world) :
  while_true (A := unit) fuel (send_update poll pause fd)
    (world_of (print "[*] Client connected, sending GPS data..." w))
  = Running w' ->
  handle_client_with poll pause fuel fd w = Running w'.
Proof.
  intros H. cbn [print world_of] in H.
  cbv [handle_client_with try_finally try_except bind print]. now rewrite H.
Qed.

Lemma json_value_packet (la lo al t v a b c d : pyval)
    (jla jlo jal jt jv ja jb jc jd : json) :
  json_value la = Some jla -> json_value lo = Some jlo ->
  json_value al = Some jal -> json_value t = Some jt ->
  json_value v = Some jv -> json_value a = Some ja ->
  json_value b = Some jb -> json_value c = Some jc ->
  json_value d = Some jd ->
  json_value
    (PyDict
       [ ("latitude", la); ("longitude", lo); ("altitude", al);
         ("timestamp", t); ("valid", v);
         ("targetLatitude", a); ("targetLongitude", b);
         ("targetAltitude", c); ("hasTarget", d) ])
  = Some
      (JObject
         [ ("latitude", jla); ("longitude", jlo); ("altitude", jal);
           ("timestamp", jt); ("valid", jv);
           ("targetLatitude", ja); ("targetLongitude", jb);
           ("targetAltitude", jc); ("hasTarget", jd) ]).
Proof.
  intros Hla Hlo Hal Ht Hv Ha Hb Hc Hd. cbn.
  now rewrite Hla, Hlo, Hal, Ht, Hv, Ha, Hb, Hc, Hd.
Qed.

Lemma serializable_target_stable (w w' : world) :
  target_location w' = target_location w ->
  serializable_target w -> serializable_target w'.
Proof. intros E. unfold serializable_target. now rewrite E. Qed.

(** X9. In the simulated variant, on an open socket of a network that does
    not fail and with a registry that serializes, the session is still
    looping after any number of turns: it has written one packet with
    [valid = True] per turn, called [send] once per turn, slept 10 seconds
    per turn, and left the socket open and the rest of the world alone. *)
Theorem simulated_session_keeps_sending (n fd : nat) (w : world)
    (sk : socket) :
  serializable_target w ->
  sockets w !! fd = Some sk ->
  sock_open sk = true ->
  (forall i, send_error w fd i = None) ->
  exists w' new,
    gps_pc.handle_client n fd w = Running w' /\
    sockets w' !! fd
    = Some (Socket true (sock_sent sk ++ new) (sock_calls sk + n)) /\
    length new = n /\
    Forall (valid_is true) new /\
    (clock w' == clock w + inject_Z (Z.of_nat n) * 10)%Q /\
    session_frame fd w w'.
Proof.
  intros Hser Hsk Hopen Herr.
  destruct (healthy_turns gps_pc.generate_random_gps 10 fd
              serializable_target (valid_is true) n)
    with (w := world_of (print "[*] Client connected, sending GPS data..." w))
         (sk := sk)
    as (w' & new & Hrun & Hsock & Hlen & Hall & Hclock & Hframe).
  - intros v v' Ht _. now apply serializable_target_stable.
  - intros v (a & b & c & d & Hf & [ja Ha] & [jb Hb] & [jc Hc] & [jd Hd]).
    rewrite (generate_random_gps_run v a b c d Hf).
    eexists _, _, _. split; [reflexivity |].
    split; [apply json_value_packet; try eassumption; reflexivity |].
    split; [eexists; split; reflexivity |].
    repeat split.
  - now apply (serializable_target_stable w).
  - exact Hsk.
  - exact Hopen.
  - exact Herr.
  - exists w', new. split; [now apply handle_client_running |].
    repeat split; try assumption; apply Hframe.
Qed.


Lemma sensor_dead_failed (w : world) :
  sensor_dead w -> gps_android.sensor_failed w = true.
Proof.
  intros H. destruct (H (termux_runs w)) as (e & He & _).
  unfold gps_android.sensor_failed. now rewrite He.
Qed.

(** X10. In the live variant a location command that fails at every run
    does not end the session: on an open socket of a network that does not
    fail, it writes one packet with [valid = False] per turn, 5 seconds
    apart, and is still looping. *)
Theorem dead_sensor_session_keeps_sending (n fd : nat) (w : world)
    (sk : socket) :
  sensor_dead w ->
  serializable_target w ->
  sockets w !! fd = Some sk ->
  sock_open sk = true ->
  (forall i, send_error w fd i = None) ->
  exists w' new,
    gps_android.handle_client n fd w = Running w' /\
    sockets w' !! fd
    = Some (Socket true (sock_sent sk ++ new) (sock_calls sk + n)) /\
    length new = n /\
    Forall (valid_is false) new /\
    (clock w' == clock w + inject_Z (Z.of_nat n) * 5)%Q /\
    session_frame fd w w'.
Proof.
  intros Hdead Hser Hsk Hopen Herr.
  destruct (healthy_turns gps_android.get_android_gps 5 fd
              (fun v => sensor_dead v /\ serializable_target v)
              (valid_is false) n)
    with (w := world_of (print "[*] Client connected, sending GPS data..." w))
         (sk := sk)
    as (w' & new & Hrun & Hsock & Hlen & Hall & Hclock & Hframe).
  - intros v v' Ht Htl [Hd Hs]. split.
    + unfold sensor_dead. now rewrite Htl.
    + now apply (serializable_target_stable v).
  - intros v [Hd (a & b & c & d & Hf & [ja Ha] & [jb Hb] & [jc Hc] & [jd Hd'])].
    unfold gps_android.get_android_gps, try_except.
    destruct (read_sensor_failed v (sensor_dead_failed v Hd)) as (e & -> & He).
    assert (is_Exception e = true) as ->.
    { destruct He as [He | He]; [exact He |].
      destruct (Hd (termux_runs v)) as (e' & He' & Hexn). congruence. }
    rewrite (fallback_run e _ a b c d) by exact Hf.
    eexists _, _, _. split; [reflexivity |].
    split; [apply json_value_packet; try eassumption; reflexivity |].
    split; [eexists; split; reflexivity |].
    repeat split.
  - split; [exact Hdead | now apply (serializable_target_stable w)].
  - exact Hsk.
  - exact Hopen.
  - exact Herr.
  - exists w', new. split; [now apply handle_client_running |].
    repeat split; try assumption; apply Hframe.
Qed.

Lemma while_true_never_returns {A} (fuel : nat) (body : M unit) (w w' : world)
    (a : A) :
  while_true fuel body w <> Return a w'.
Proof.
  revert w. induction fuel as [| fuel IH]; intros w; [discriminate |].
  cbn [while_true]. unfold bind.
  destruct (body w) as [[] w1 | e w1 | w1]; [apply IH | discriminate ..].
Qed.

(** X11. However [handle_client] ends, by returning or by letting an
    exception through, the [finally] clause has closed its socket. *)
Theorem session_end_closes_socket (s : script) (fuel fd : nat)
    (w w' : world) (sk' : socket) :
  (handle_client_of s fuel fd w = Return tt w' \/
   exists e, handle_client_of s fuel fd w = Raise e w') ->
  sockets w' !! fd = Some sk' ->
  sock_open sk' = false.
Proof.
  assert (handle_client_of s fuel fd w
          = handle_client_with (poll_of s) (pause_of s) fuel fd w) as ->
    by (destruct s; reflexivity).
  cbv [handle_client_with try_finally try_except bind print].
  intros Hend Hsk.
  assert (forall m : gmap nat socket,
             alter (fun s => Socket false (sock_sent s) (sock_calls s)) fd m
             !! fd = Some sk' ->
             sock_open sk' = false) as Hclose.
  { intros m. rewrite lookup_alter_eq.
    destruct (m !! fd); cbn; [| discriminate]. now intros [= <-]. }
  destruct (while_true fuel _ _) as [[] w1 | e w1 | w1].
  - destruct Hend as [[= <-] | [e [=]]]. cbn in Hsk. eapply Hclose, Hsk.
  - destruct (is_Exception e).
    + destruct Hend as [[= <-] | [e' [=]]]. cbn in Hsk. eapply Hclose, Hsk.
    + destruct Hend as [[=] | [e' [= _ <-]]]. cbn in Hsk. eapply Hclose, Hsk.
  - destruct Hend as [[=] | [e' [=]]].
Qed.

(** X12. [handle_client] has no way out of its loop but an exception: when
    it returns, the last line printed is "Connection closed: ..." for an
    [Exception] that a turn raised. *)
Theorem session_returns_only_after_error (s : script) (fuel fd : nat)
    (w w' : world) :
  handle_client_of s fuel fd w = Return tt w' ->
  exists e out,
    is_Exception e = true /\
    stdout w'
    = (out ++ [("Connection closed: " ++ str_of_exn e ++ newline)%string])%list.
Proof.
  assert (handle_client_of s fuel fd w
          = handle_client_with (poll_of s) (pause_of s) fuel fd w) as ->
    by (destruct s; reflexivity).
  cbv [handle_client_with try_finally try_except bind print].
  destruct (while_true fuel _ _) as [[] w1 | e w1 | w1] eqn:Hloop.
  - now apply while_true_never_returns in Hloop.
  - destruct (is_Exception e) eqn:He; [| discriminate].
    intros [= <-]. exists e, (stdout w1). split; [exact He | reflexivity].
  - discriminate.
Qed.

(** X13. When the location command's output parses to an object with
    [latitude] and [longitude], the live poll passes both values on as they
    are, whatever their type, with the reported altitude or [0] when there
    is none, [valid = True] and the fields of the registry; it prints
    nothing. *)
Theorem live_poll_passes_reading_on (w : world) (raw : list Byte.byte)
    (output : string) (reading : list (string * pyval))
    (la lo a b c d : pyval) :
  termux_location w (termux_runs w) = inr raw ->
  decode_utf8 raw = Some output ->
  json_loads output = Some (PyDict reading) ->
  dict_lookup "latitude" reading = Some la ->
  dict_lookup "longitude" reading = Some lo ->
  fields_of (target_location w) = Some [a; b; c; d] ->
  gps_android.get_android_gps w
  = Return
      (PyDict
         [ ("latitude", la);
           ("longitude", lo);
           ("altitude", default (PyInt 0) (dict_lookup "altitude" reading));
           ("timestamp", PyInt (int_of_Q (clock w * 1000)));
           ("valid", PyBool true);
           ("targetLatitude", a);
           ("targetLongitude", b);
           ("targetAltitude", c);
           ("hasTarget", d) ])
      (set_termux_runs (S (termux_runs w)) w).
Proof.
  intros Hcmd Hdec Hjson Hla Hlo Hf.
  apply fields_of_lookup in Hf as (Ha & Hb & Hc & Hd).
  unfold gps_android.get_android_gps, try_except, gps_android.read_sensor,
    gps_android.check_output_termux_location, gps_android.decode,
    gps_android.loads.
  cbv [bind]. rewrite Hcmd, Hdec. cbv [ret]. rewrite Hjson.
  cbv [subscript get_method]. rewrite Hla, Hlo.
  unfold timestamp_ms, time_time, target_field, bind, ret.
  read_fields Ha Hb Hc Hd. reflexivity.
Qed.

End Session_more.

(** ** The address of the device *)

(** ** Strings *)

Lemma split_on_from_length (sep : string) (skip : nat)
    (piece : list Ascii.ascii) (s : string) :
  (1 <= length (split_on_from sep skip piece s))%nat.
Proof.
  revert skip piece. induction s as [| c s IH]; intros skip piece.
  - cbn. lia.
  - cbn [split_on_from]. destruct skip as [| k]; [| apply IH].
    destruct (String.prefix sep (String c s)); [cbn; lia | apply IH].
Qed.

Lemma contains_split_on_from (sep : string) (piece : list Ascii.ascii)
    (s : string) :
  String.prefix sep EmptyString = false ->
  contains sep s = true ->
  (2 <= length (split_on_from sep 0 piece s))%nat.
Proof.
  intros Hsep. revert piece. induction s as [| c s IH]; intros piece.
  - cbn [contains]. rewrite Hsep. discriminate.
  - cbn [contains split_on_from].
    destruct (String.prefix sep (String c s)).
    + intros _. pose proof (split_on_from_length sep (String.length sep - 1) [] s).
      cbn [length]. lia.
    + cbn [orb]. apply IH.
Qed.

Lemma prefix_inv (s1 s2 : string) :
  String.prefix s1 s2 = true ->
  exists post,
    String.list_ascii_of_string s2
    = (String.list_ascii_of_string s1 ++ post)%list.
Proof.
  revert s2. induction s1 as [| a s1 IH]; intros s2.
  - intros _. now exists (String.list_ascii_of_string s2).
  - destruct s2 as [| b s2]; cbn [String.prefix]; [discriminate |].
    destruct (Ascii.ascii_dec a b) as [<- | _]; [| discriminate].
    intros H. destruct (IH s2 H) as [post E]. exists post. cbn. now rewrite E.
Qed.

Lemma prefix_intro (s1 s2 : string) (post : list Ascii.ascii) :
  String.list_ascii_of_string s2
  = (String.list_ascii_of_string s1 ++ post)%list ->
  String.prefix s1 s2 = true.
Proof.
  revert s2. induction s1 as [| a s1 IH]; intros s2 E.
  - now destruct s2.
  - destruct s2 as [| b s2]; [discriminate |]. cbn in E.
    injection E as <- E. cbn [String.prefix].
    destruct (Ascii.ascii_dec b b) as [_ | N]; [now apply IH | now destruct N].
Qed.

(** [contains sub s] holds when [sub] occurs in [s], and only then. *)
Lemma contains_inv (sub s : string) :
  contains sub s = true ->
  exists pre post,
    String.list_ascii_of_string s
    = (pre ++ String.list_ascii_of_string sub ++ post)%list.
Proof.
  induction s as [| c s IH]; cbn [contains].
  - rewrite orb_false_r. intros H. destruct (prefix_inv _ _ H) as [post E].
    now exists [], post.
  - destruct (String.prefix sub (String c s)) eqn:Hp.
    + intros _. destruct (prefix_inv _ _ Hp) as [post E]. now exists [], post.
    + cbn [orb]. intros H. destruct (IH H) as (pre & post & E).
      exists (c :: pre), post. cbn. now rewrite E.
Qed.

Lemma contains_intro (sub s : string) (pre post : list Ascii.ascii) :
  String.list_ascii_of_string s
  = (pre ++ String.list_ascii_of_string sub ++ post)%list ->
  contains sub s = true.
Proof.
  revert s. induction pre as [| c pre IH]; intros s E.
  - destruct s; cbn [contains]; rewrite (prefix_intro sub _ post E); reflexivity.
  - destruct s as [| b s]; [discriminate |]. cbn in E. injection E as <- E.
    cbn [contains]. rewrite (IH s E). apply orb_true_r.
Qed.

(** Every piece of a split is a stretch of the string. *)
Lemma split_on_from_pieces (sep : string) (s : string) :
  (forall piece x,
      x ∈ split_on_from sep 0 piece s ->
      exists pre post,
        (rev piece ++ String.list_ascii_of_string s
         = pre ++ String.list_ascii_of_string x ++ post)%list) /\
  (forall skip x,
      x ∈ split_on_from sep skip [] s ->
      exists pre post,
        String.list_ascii_of_string s
        = (pre ++ String.list_ascii_of_string x ++ post)%list).
Proof.
  induction s as [| c s [IHa IHb]].
  - split.
    + intros piece x Hx. cbn in Hx. apply list_elem_of_singleton in Hx as ->.
      exists [], []. cbn.
      now rewrite String.list_ascii_of_string_of_list_ascii, !app_nil_r.
    + intros skip x Hx. cbn in Hx. apply list_elem_of_singleton in Hx as ->.
      now exists [], [].
  - assert (forall piece x,
               x ∈ split_on_from sep 0 piece (String c s) ->
               exists pre post,
                 (rev piece ++ String.list_ascii_of_string (String c s)
                  = pre ++ String.list_ascii_of_string x ++ post)%list)
      as Ha.
    { intros piece x. cbn [split_on_from].
      destruct (String.prefix sep (String c s)).
      - intros Hx. apply elem_of_cons in Hx as [-> | Hx].
        + exists [], (String.list_ascii_of_string (String c s)).
          now rewrite String.list_ascii_of_string_of_list_ascii.
        + destruct (IHb _ _ Hx) as (pre & post & E).
          exists (rev piece ++ c :: pre)%list, post. cbn. rewrite E.
          now rewrite <- !app_assoc.
      - intros Hx. destruct (IHa _ _ Hx) as (pre & post & E).
        exists pre, post. rewrite <- E. cbn. now rewrite <- app_assoc. }
    split; [exact Ha |].
    intros skip x. destruct skip as [| k].
    + intros Hx. destruct (Ha [] x Hx) as (pre & post & E). now exists pre, post.
    + cbn [split_on_from]. intros Hx. destruct (IHb _ _ Hx) as (pre & post & E).
      exists (c :: pre), post. cbn. now rewrite E.
Qed.

Lemma split_on_keeps_absent (sub sep s x : string) :
  contains sub s = false ->
  x ∈ split_on sep s ->
  contains sub x = false.
Proof.
  intros Hs Hx. destruct (contains sub x) eqn:Hc; [| reflexivity].
  destruct (proj2 (split_on_from_pieces sep s) 0%nat x Hx) as (pre & post & E).
  destruct (contains_inv sub x Hc) as (pre' & post' & E').
  rewrite <- Hs. symmetry.
  apply (contains_intro sub s (pre ++ pre') (post' ++ post)).
  rewrite E, E'. now rewrite <- !app_assoc.
Qed.

(** The first piece of a split on one character is free of it. *)
Lemma first_piece_free (ch : Ascii.ascii) (piece : list Ascii.ascii)
    (s x : string) :
  split_on_from (String ch EmptyString) 0 piece s !! 0%nat = Some x ->
  Forall (fun c => c <> ch) piece ->
  Forall (fun c => c <> ch) (String.list_ascii_of_string x).
Proof.
  revert piece. induction s as [| c s IH]; intros piece.
  - cbn. intros [= <-] Hp.
    rewrite String.list_ascii_of_string_of_list_ascii. now apply Forall_rev.
  - cbn [split_on_from String.prefix].
    destruct (Ascii.ascii_dec ch c) as [<- | Hne].
    + destruct s; cbn; intros [= <-] Hp;
        rewrite String.list_ascii_of_string_of_list_ascii;
        now apply Forall_rev.
    + intros Hx Hp. apply (IH (c :: piece) Hx). constructor; [congruence | exact Hp].
Qed.

Lemma free_not_contains (ch : Ascii.ascii) (x : string) :
  Forall (fun c => c <> ch) (String.list_ascii_of_string x) ->
  contains (String ch EmptyString) x = false.
Proof.
  induction x as [| c x IH]; [reflexivity |].
  cbn. intros H. apply Forall_cons in H as [Hc Hx].
  destruct (Ascii.ascii_dec ch c) as [-> | _]; [now destruct Hc |].
  now apply IH.
Qed.

(** ** The server *)

(** Reads the fields of a host built by the steps of [start_server]. *)
Ltac host_simpl :=
  cbn [host_world reuse_address bound backlog started bind_error host_ip
       ifconfig_wlan0 incoming with_world].

Section Server_facts.
Context `{B : Builtins}.

Lemma scan_ifconfig_returns (lines : list string) (ip : string) (w : world) :
  exists a, scan_ifconfig lines ip w = Return a w.
Proof.
  revert ip. induction lines as [| line lines IH]; intros ip.
  - now exists ip.
  - cbn [scan_ifconfig]. destruct (contains "inet " line) eqn:Hc; [| apply IH].
    destruct (split_on "inet " line !! 1%nat) as [after |] eqn:H1.
    + destruct (split_on " " after !! 0%nat) as [address |] eqn:H0.
      * unfold bind, list_item. rewrite H1. cbn [ret]. rewrite H0. apply IH.
      * apply lookup_ge_None in H0.
        pose proof (split_on_from_length " " 0 [] after). unfold split_on in H0. lia.
    + apply lookup_ge_None in H1.
      pose proof (contains_split_on_from "inet " [] line eq_refl Hc).
      unfold split_on in H1. lia.
Qed.


Lemma scan_ifconfig_no_space (lines : list string) (ip a : string)
    (w w' : world) :
  contains " " ip = false ->
  scan_ifconfig lines ip w = Return a w' ->
  contains " " a = false.
Proof.
  revert ip. induction lines as [| line lines IH]; intros ip Hip.
  - now intros [= <- _].
  - cbn [scan_ifconfig]. destruct (contains "inet " line); [| now apply IH].
    unfold bind, list_item.
    destruct (split_on "inet " line !! 1%nat) as [after |]; [| discriminate].
    cbn [ret].
    destruct (split_on " " after !! 0%nat) as [address |] eqn:H0;
      [| discriminate].
    apply IH. apply free_not_contains.
    eapply first_piece_free; [exact H0 | constructor].
Qed.

Lemma scan_ifconfig_no_inet (lines : list string) (ip : string) (w : world) :
  Forall (fun line => contains "inet " line = false) lines ->
  scan_ifconfig lines ip w = Return ip w.
Proof.
  induction 1 as [| line lines Hl _ IH]; [reflexivity |].
  cbn [scan_ifconfig]. now rewrite Hl.
Qed.

(** X14. Reading the address out of the output of [ifconfig wlan0] never
    raises, whatever the output: the index [1] after [split('inet ')] is
    there because the line contains "inet ". The address has no space in
    it, and is "unknown" when the output has no "inet " at all. *)
Theorem wlan0_address_never_fails (ip_info : string) (w : world) :
  exists a,
    wlan0_address ip_info w = Return a w /\
    contains " " a = false /\
    (contains "inet " ip_info = false -> a = "unknown").
Proof.
  unfold wlan0_address.
  destruct (scan_ifconfig_returns (split_on newline ip_info) "unknown" w)
    as [a Ha].
  exists a. split; [exact Ha |]. split.
  - eapply scan_ifconfig_no_space; [| exact Ha]. reflexivity.
  - intros Hno. rewrite scan_ifconfig_no_inet in Ha; [now injection Ha |].
    apply Forall_forall. intros line Hline.
    eapply split_on_keeps_absent; eauto.
Qed.


(** What [start_server] has done when it enters its [try] *)
Lemma start_server_prologue (s : script) (fuel : nat) (h : host) :
  bind_error h = None ->
  address_found s h ->
  exists h1,
    start_server_of s fuel h = accept_loop fuel h1 /\
    incoming h1 = incoming h /\
    started h1 = (started h ++ [Thread run_handle_user_input true])%list /\
    listening (host_world h1) = true /\
    bound h1 = Some ("0.0.0.0", 8085) /\
    backlog h1 = Some 5 /\
    reuse_address h1 = true /\
    target_location (host_world h1) = target_location (host_world h) /\
    sockets (host_world h1) = sockets (host_world h).
Proof.
  destruct h as [w r b bl st be hi ic inc]. cbn [bind_error].
  intros -> Haddr. destruct s; cbn [start_server_of address_found] in *.
  - destruct Haddr as [ip Hip]. cbn [host_ip] in Hip. subst hi.
    cbv [gps_pc_main.start_server hbind socket_socket setsockopt_reuseaddr
         server_bind server_listen gethostbyname_gethostname lift print
         start_daemon_thread].
    host_simpl.
    eexists. split; [reflexivity |]. host_simpl.
    repeat (split; [reflexivity |]). reflexivity.
  - destruct Haddr as (raw & ip_info & Hraw & Hdec).
    cbn [ifconfig_wlan0] in Hraw. subst ic.
    destruct (scan_ifconfig_returns (split_on newline ip_info) "unknown"
                (set_listening true w)) as (a & Ha).
    assert (gps_android_main.start_server fuel
              (Host w r b bl st None hi (inr raw) inc)
            = (ip_address <- lift (wlan0_address ip_info) ;;
               lift (print "[*] GPS Server running") ;;;
               lift (print ("[*] IP Address: " ++ ip_address)) ;;;
               lift (print ("[*] Port: " ++ str_of_val (PyInt 8085))) ;;;
               lift (print ("[*] Use this in Unity: " ++ ip_address ++ ":"
                            ++ str_of_val (PyInt 8085))) ;;;
               start_daemon_thread run_handle_user_input ;;;
               lift (print "[*] Target location interaction enabled") ;;;
               lift (print "[*] Press Ctrl+C to stop the server") ;;;
               lift (print "[*] Waiting for input...") ;;;
               accept_loop fuel)%srv
                (Host (set_listening true w) true (Some ("0.0.0.0", 8085))
                      (Some 5) st None hi (inr raw) inc)) as ->.
    { cbv [gps_android_main.start_server hbind socket_socket
           setsockopt_reuseaddr server_bind server_listen
           check_output_ifconfig_wlan0].
      host_simpl. cbv [lift gps_android.decode]. host_simpl.
      rewrite Hdec. reflexivity. }
    unfold hbind at 1. unfold lift at 1, wlan0_address. host_simpl.
    rewrite Ha.
    cbv [hbind lift print start_daemon_thread]. host_simpl.
    eexists. split; [reflexivity |]. host_simpl.
    repeat (split; [reflexivity |]). reflexivity.
Qed.

(** The loop through a run of connections: each is accepted, announced,
    and given a daemon thread. *)
Lemma accept_connections (fuel : nat) (conns : list (nat * (string * Z)))
    (rest : list (exn + nat * (string * Z))) (h : host) :
  incoming h = (map inr conns ++ rest)%list ->
  exists h',
    hwhile_true (A := unit) (length conns + fuel)
      (conn <- server_accept ;;
       lift (print ("[*] Accepted connection from " ++ fst (snd conn) ++ ":"
                    ++ str_of_val (PyInt (snd (snd conn))))) ;;;
       start_daemon_thread (run_handle_client (fst conn)))%srv h
    = hwhile_true fuel
        (conn <- server_accept ;;
         lift (print ("[*] Accepted connection from " ++ fst (snd conn) ++ ":"
                      ++ str_of_val (PyInt (snd (snd conn))))) ;;;
         start_daemon_thread (run_handle_client (fst conn)))%srv h' /\
    incoming h' = rest /\
    started h' = (started h ++ client_threads conns)%list /\
    listening (host_world h') = listening (host_world h) /\
    bound h' = bound h /\
    target_location (host_world h') = target_location (host_world h) /\
    (forall conn, conn ∈ conns ->
                  is_Some (sockets (host_world h') !! fst conn)) /\
    (forall fd, fd ∉ fst <$> conns ->
                sockets (host_world h') !! fd = sockets (host_world h) !! fd).
Proof.
  revert h. induction conns as [| [client [ip port]] conns IH]; intros h Hin.
  - exists h. cbn in *. rewrite app_nil_r. repeat split; auto.
    intros conn Hc. now apply elem_of_nil in Hc.
  - cbn [map app] in Hin. cbn [length Nat.add hwhile_true].
    unfold hbind at 1.
    cbv [hbind server_accept lift print start_daemon_thread].
    rewrite Hin. host_simpl. cbn [fst snd].
    match goal with
    | |- exists h', hwhile_true _ _ ?h1 = _ /\ _ =>
        destruct (IH h1 eq_refl)
          as (h' & Hrun & Hinc & Hst & Hl & Hb & Ht & Hnew & Hold)
    end.
    exists h'. split; [exact Hrun |]. split; [exact Hinc |].
    split; [rewrite Hst; cbn; now rewrite <- app_assoc |].
    split; [exact Hl |]. split; [exact Hb |]. split; [exact Ht |]. split.
    + intros conn Hc. apply elem_of_cons in Hc as [-> | Hc]; [| now apply Hnew].
      cbn [fst].
      destruct (decide (client ∈ fst <$> conns)) as [Hi | Hi].
      * apply list_elem_of_fmap in Hi as (conn' & -> & Hc'). now apply Hnew.
      * rewrite (Hold _ Hi). cbn. rewrite lookup_insert_eq. eauto.
    + intros fd Hfd. rewrite fmap_cons in Hfd. cbn [fst] in Hfd.
      apply not_elem_of_cons in Hfd as [Hne Hfd].
      rewrite (Hold _ Hfd). cbn. now rewrite lookup_insert_ne.
Qed.

(** X15. In either script, once bound and with its address found, the
    server starts the console thread, then one daemon thread per accepted
    connection, in order; a [KeyboardInterrupt] in [accept] ends it: it
    prints "[*] Shutting down server", closes the listening socket and
    returns, the registry untouched. *)
Theorem interrupt_stops_server (s : script) (fuel : nat) (h : host)
    (conns : list (nat * (string * Z)))
    (later : list (exn + nat * (string * Z))) :
  bind_error h = None ->
  address_found s h ->
  incoming h = (map inr conns ++ inl KeyboardInterrupt :: later)%list ->
  (length conns < fuel)%nat ->
  exists h',
    start_server_of s fuel h = Served tt h' /\
    started h'
    = (started h ++ Thread run_handle_user_input true
                    :: client_threads conns)%list /\
    listening (host_world h') = false /\
    incoming h' = later /\
    (forall conn, conn ∈ conns ->
                  is_Some (sockets (host_world h') !! fst conn)) /\
    target_location (host_world h') = target_location (host_world h) /\
    last (stdout (host_world h'))
    = Some ("[*] Shutting down server" ++ newline).
Proof.
  intros Hbind Haddr Hin Hfuel.
  destruct (start_server_prologue s fuel h Hbind Haddr)
    as (h1 & -> & Hin1 & Hst1 & Hl1 & _ & _ & _ & Ht1 & Hs1).
  rewrite <- Hin1 in Hin.
  destruct (accept_connections (fuel - length conns) conns _ h1 Hin)
    as (h2 & Hrun & Hin2 & Hst2 & Hl2 & _ & Ht2 & Hnew & _).
  replace (length conns + (fuel - length conns))%nat with fuel in Hrun by lia.
  unfold accept_loop, htry_except. rewrite Hrun.
  destruct (fuel - length conns)%nat as [| k] eqn:Hk; [lia |].
  cbn [hwhile_true]. unfold hbind at 1.
  cbv [hbind server_accept]. rewrite Hin2.
  cbn [is_KeyboardInterrupt]. cbv [lift print server_close]. host_simpl.
  eexists. split; [reflexivity |]. host_simpl. cbn [started incoming].
  split; [rewrite Hst2, Hst1; now rewrite <- app_assoc |].
  split; [reflexivity |]. split; [reflexivity |].
  split; [exact Hnew |]. split; [cbn; congruence |].
  cbn. apply last_snoc.
Qed.

(** X16. In either script, when [bind] raises, [start_server] raises the
    same exception at once: nothing is printed, no thread is started. *)
Theorem bind_failure_is_fatal (s : script) (fuel : nat) (h : host) (e : exn) :
  bind_error h = Some e ->
  exists h',
    start_server_of s fuel h = Failed e h' /\
    host_world h' = host_world h /\
    started h' = started h /\
    bound h' = None.
Proof.
  intros Hbind. destruct s; cbn [start_server_of].
  - cbv [gps_pc_main.start_server hbind socket_socket setsockopt_reuseaddr
         server_bind].
    host_simpl. rewrite Hbind. eexists. split; [reflexivity |]. repeat split.
  - cbv [gps_android_main.start_server hbind socket_socket
         setsockopt_reuseaddr server_bind].
    host_simpl. rewrite Hbind. eexists. split; [reflexivity |]. repeat split.
Qed.

(** X17. In either script, when looking the address up fails (the host
    name does not resolve; [ifconfig wlan0] fails or its output is not
    UTF-8), [start_server] raises after [bind] and [listen]: the socket is
    left bound and listening, no thread is started, nothing is printed. *)
Theorem address_failure_leaves_socket_open (s : script) (fuel : nat)
    (h : host) (e : exn) :
  bind_error h = None ->
  address_error s h e ->
  exists h',
    start_server_of s fuel h = Failed e h' /\
    listening (host_world h') = true /\
    bound h' = Some ("0.0.0.0", 8085) /\
    started h' = started h /\
    stdout (host_world h') = stdout (host_world h).
Proof.
  intros Hbind Haddr. destruct s; cbn [start_server_of address_error] in *.
  - cbv [gps_pc_main.start_server hbind socket_socket setsockopt_reuseaddr
         server_bind server_listen gethostbyname_gethostname].
    host_simpl. rewrite Hbind. host_simpl. rewrite Haddr.
    eexists. split; [reflexivity |]. repeat split.
  - cbv [gps_android_main.start_server hbind socket_socket
         setsockopt_reuseaddr server_bind server_listen
         check_output_ifconfig_wlan0].
    host_simpl. rewrite Hbind. host_simpl.
    destruct Haddr as [Hraw | (raw & Hraw & Hdec & ->)]; rewrite Hraw.
    + eexists. split; [reflexivity |]. repeat split.
    + cbv [lift gps_android.decode]. host_simpl. rewrite Hdec. cbv [raise].
      eexists. split; [reflexivity |]. repeat split.
Qed.

(** X18. In either script, an exception in [accept] other than
    [KeyboardInterrupt] is not caught: [start_server] raises it, and the
    listening socket is left open with the threads started so far. *)
Theorem accept_error_is_fatal (s : script) (fuel : nat) (h : host)
    (conns : list (nat * (string * Z))) (e : exn)
    (later : list (exn + nat * (string * Z))) :
  bind_error h = None ->
  address_found s h ->
  incoming h = (map inr conns ++ inl e :: later)%list ->
  is_KeyboardInterrupt e = false ->
  (length conns < fuel)%nat ->
  exists h',
    start_server_of s fuel h = Failed e h' /\
    started h'
    = (started h ++ Thread run_handle_user_input true
                    :: client_threads conns)%list /\
    listening (host_world h') = true /\
    incoming h' = later.
Proof.
  intros Hbind Haddr Hin He Hfuel.
  destruct (start_server_prologue s fuel h Hbind Haddr)
    as (h1 & -> & Hin1 & Hst1 & Hl1 & _ & _ & _ & Ht1 & Hs1).
  rewrite <- Hin1 in Hin.
  destruct (accept_connections (fuel - length conns) conns _ h1 Hin)
    as (h2 & Hrun & Hin2 & Hst2 & Hl2 & _ & Ht2 & Hnew & _).
  replace (length conns + (fuel - length conns))%nat with fuel in Hrun by lia.
  unfold accept_loop, htry_except. rewrite Hrun.
  destruct (fuel - length conns)%nat as [| k] eqn:Hk; [lia |].
  cbn [hwhile_true]. unfold hbind at 1.
  cbv [hbind server_accept]. rewrite Hin2, He.
  eexists. split; [reflexivity |]. host_simpl.
  split; [rewrite Hst2, Hst1; now rewrite <- app_assoc |].
  split; [congruence | reflexivity].
Qed.

(** X19. In either script, with no interrupt the server does not stop:
    after the connections that came it is waiting in [accept], the socket
    listening, one thread started per connection. *)
Theorem server_waits_for_connections (s : script) (fuel : nat) (h : host)
    (conns : list (nat * (string * Z))) :
  bind_error h = None ->
  address_found s h ->
  incoming h = map inr conns ->
  (length conns < fuel)%nat ->
  exists h',
    start_server_of s fuel h = Waiting h' /\
    started h'
    = (started h ++ Thread run_handle_user_input true
                    :: client_threads conns)%list /\
    listening (host_world h') = true /\
    (forall conn, conn ∈ conns ->
                  is_Some (sockets (host_world h') !! fst conn)).
Proof.
  intros Hbind Haddr Hin Hfuel.
  destruct (start_server_prologue s fuel h Hbind Haddr)
    as (h1 & -> & Hin1 & Hst1 & Hl1 & _ & _ & _ & Ht1 & Hs1).
  rewrite <- Hin1, <- (app_nil_r (map inr conns)) in Hin.
  destruct (accept_connections (fuel - length conns) conns _ h1 Hin)
    as (h2 & Hrun & Hin2 & Hst2 & Hl2 & _ & Ht2 & Hnew & _).
  replace (length conns + (fuel - length conns))%nat with fuel in Hrun by lia.
  unfold accept_loop, htry_except. rewrite Hrun.
  destruct (fuel - length conns)%nat as [| k] eqn:Hk; [lia |].
  cbn [hwhile_true]. unfold hbind at 1.
  cbv [hbind server_accept]. rewrite Hin2.
  exists h2. split; [reflexivity |].
  split; [rewrite Hst2, Hst1; now rewrite <- app_assoc |].
  split; [congruence | exact Hnew].
Qed.

End Server_facts.

(** ** The further properties at work on the sample environment *)

Lemma clear_command_witness :
  lower "CLEAR" = "clear" /\
  exists w',
    console_turn (set_stdin ["CLEAR"] sample_target_world) = Return tt w' /\
    target_location w' = initial_target_location.
Proof.
  split; [reflexivity |].
  destruct (clear_command (set_stdin ["CLEAR"] sample_target_world) "CLEAR" []
              eq_refl eq_refl) as (w' & Hrun & Ht & _).
  exists w'. split; [exact Hrun | exact Ht].
Defined.

Lemma help_command_witness :
  lower "Help" = "help" /\
  exists w',
    console_turn (set_stdin ["Help"; "clear"] sample_target_world)
    = Return tt w' /\
    target_location w' = target_location sample_target_world /\
    stdin w' = ["clear"].
Proof.
  split; [reflexivity |].
  destruct (help_command (set_stdin ["Help"; "clear"] sample_target_world)
              "Help" ["clear"] eq_refl eq_refl) as (w' & Hrun & Ht & Hin & _).
  exists w'. split; [exact Hrun |]. split; [exact Ht | exact Hin].
Defined.

Lemma unknown_command_witness :
  (lower "y " ∉ ["y"; "yes"; "clear"; "help"]) /\
  exists w',
    console_turn (set_stdin ["y "] sample_world) = Return tt w' /\
    target_location w' = target_location sample_world.
Proof.
  assert (lower "y " ∉ ["y"; "yes"; "clear"; "help"]) as Hn.
  { intros H. repeat (apply elem_of_cons in H as [H | H]; [discriminate H |]).
    now apply elem_of_nil in H. }
  split; [exact Hn |].
  destruct (unknown_command (set_stdin ["y "] sample_world) "y " []
              eq_refl Hn) as (w' & Hrun & Ht & _).
  exists w'. split; [exact Hrun | exact Ht].
Defined.

Lemma commands_ignore_case_witness :
  console_turn (set_stdin ["YES"; "1 2"] sample_world)
  = console_turn (set_stdin ["yes"; "1 2"]
                    (set_stdin ["YES"; "1 2"] sample_world)).
Proof.
  exact (commands_ignore_case (set_stdin ["YES"; "1 2"] sample_world)
           "YES" ["1 2"] eq_refl).
Defined.

Lemma end_of_input_spins_witness :
  stdin sample_world = [] /\
  exists w',
    handle_user_input 3 sample_world = Running w' /\
    target_location w' = target_location sample_world /\
    length (stdout w') = 6%nat.
Proof.
  split; [reflexivity |].
  destruct (end_of_input_spins 3 sample_world eq_refl)
    as (w' & Hrun & Ht & Hout).
  exists w'. split; [exact Hrun |]. split; [exact Ht |].
  rewrite Hout. reflexivity.
Defined.

Lemma end_of_input_at_coordinates_witness :
  lower "y" ∈ ["y"; "yes"] /\
  exists w',
    console_turn (set_stdin ["y"] sample_target_world) = Return tt w' /\
    target_location w' = target_location sample_target_world.
Proof.
  assert (lower "y" ∈ ["y"; "yes"]) as Hy by (apply list_elem_of_here).
  split; [exact Hy |].
  destruct (end_of_input_at_coordinates
              (set_stdin ["y"] sample_target_world) "y" eq_refl Hy)
    as (w' & Hrun & Ht & _).
  exists w'. split; [exact Hrun | exact Ht].
Defined.

Lemma console_stores_numbers_only_witness :
  reachable is_number (set_stdin ["y"; "1 2 3"; "clear"; "y"; "x"] sample_world)
  /\
  reachable is_number
    (world_of
       (handle_user_input 4
          (set_stdin ["y"; "1 2 3"; "clear"; "y"; "x"] sample_world))).
Proof.
  assert (reachable is_number
            (set_stdin ["y"; "1 2 3"; "clear"; "y"; "x"] sample_world)) as Hr
    by (apply reach_init; reflexivity).
  split; [exact Hr |].
  exact (console_stores_numbers_only 4 _ Hr).
Defined.

Lemma sample_quiet_world_serializable : serializable_target sample_quiet_world.
Proof.
  exists PyNone, PyNone, (PyInt 0), (PyBool false).
  split; [reflexivity |]. repeat split; eexists; reflexivity.
Defined.

Lemma simulated_session_keeps_sending_witness :
  serializable_target sample_quiet_world /\
  sockets sample_quiet_world !! 4%nat = Some (Socket true [] 0) /\
  (forall i, send_error sample_quiet_world 4 i = None) /\
  exists w' new,
    gps_pc.handle_client 3 4 sample_quiet_world = Running w' /\
    sockets w' !! 4%nat = Some (Socket true new 3) /\
    length new = 3%nat /\
    Forall (valid_is true) new.
Proof.
  split; [exact sample_quiet_world_serializable |].
  split; [reflexivity |]. split; [reflexivity |].
  destruct (simulated_session_keeps_sending 3 4 sample_quiet_world
              (Socket true [] 0) sample_quiet_world_serializable eq_refl
              eq_refl (fun _ => eq_refl))
    as (w' & new & Hrun & Hs & Hl & Hv & _).
  exists w', new. split; [exact Hrun |]. split; [exact Hs |].
  split; [exact Hl | exact Hv].
Defined.

Lemma dead_sensor_session_keeps_sending_witness :
  sensor_dead sample_quiet_world /\
  exists w' new,
    gps_android.handle_client 3 4 sample_quiet_world = Running w' /\
    sockets w' !! 4%nat = Some (Socket true new 3) /\
    length new = 3%nat /\
    Forall (valid_is false) new.
Proof.
  assert (sensor_dead sample_quiet_world) as Hd
    by (intros i; exists FileNotFoundError; split; reflexivity).
  split; [exact Hd |].
  destruct (dead_sensor_session_keeps_sending 3 4 sample_quiet_world
              (Socket true [] 0) Hd sample_quiet_world_serializable eq_refl
              eq_refl (fun _ => eq_refl))
    as (w' & new & Hrun & Hs & Hl & Hv & _).
  exists w', new. split; [exact Hrun |]. split; [exact Hs |].
  split; [exact Hl | exact Hv].
Defined.

Lemma session_end_closes_socket_witness :
  exists w' sk',
    handle_client_of gps_pc_py 5 4 sample_world = Return tt w' /\
    sockets w' !! 4%nat = Some sk' /\
    sock_open sk' = false.
Proof.
  eexists _, _.
  split; [vm_compute; reflexivity |].
  split; [vm_compute; reflexivity |].
  eapply (session_end_closes_socket gps_pc_py 5 4 sample_world);
    [left; vm_compute; reflexivity | vm_compute; reflexivity].
Defined.

Lemma session_returns_only_after_error_witness :
  exists w' e out,
    handle_client_of gps_pc_py 5 4 sample_world = Return tt w' /\
    is_Exception e = true /\
    stdout w'
    = (out ++ [("Connection closed: " ++ str_of_exn e ++ newline)%string])%list.
Proof.
  destruct (handle_client_of gps_pc_py 5 4 sample_world)
    as [[] w' | e w' | w'] eqn:Hrun;
    [| vm_compute in Hrun; discriminate Hrun ..].
  destruct (session_returns_only_after_error gps_pc_py 5 4 sample_world w'
              Hrun) as (e & out & He & Hout).
  exists w', e, out. split; [reflexivity |]. split; [exact He | exact Hout].
Defined.

Lemma live_poll_passes_reading_on_witness :
  exists w',
    gps_android.get_android_gps sample_sensor_world
    = Return
        (PyDict
           [ ("latitude", PyFloat (Finite (6341 # 100)));
             ("longitude", PyFloat (Finite (105 # 10)));
             ("altitude", PyInt 0);
             ("timestamp", PyInt 1700000000000);
             ("valid", PyBool true);
             ("targetLatitude", PyNone);
             ("targetLongitude", PyNone);
             ("targetAltitude", PyInt 0);
             ("hasTarget", PyBool false) ]) w' /\
    stdout w' = [].
Proof.
  eexists. split.
  - exact (live_poll_passes_reading_on sample_sensor_world
             [Byte.x7b; Byte.x7d] "{}"
             [ ("latitude", PyFloat (Finite (6341 # 100)));
               ("longitude", PyFloat (Finite (105 # 10))) ]
             (PyFloat (Finite (6341 # 100))) (PyFloat (Finite (105 # 10)))
             PyNone PyNone (PyInt 0) (PyBool false)
             eq_refl eq_refl eq_refl eq_refl eq_refl eq_refl).
  - reflexivity.
Defined.

Lemma sample_host_address_found (s : script) : address_found s sample_host.
Proof.
  destruct s; cbn.
  - eexists. reflexivity.
  - eexists _, _. split; reflexivity.
Defined.

Lemma interrupt_stops_server_witness :
  bind_error sample_host = None /\
  address_found gps_android_py sample_host /\
  exists h',
    start_server_of gps_android_py 5 sample_host = Served tt h' /\
    started h'
    = [ Thread run_handle_user_input true;
        Thread (run_handle_client 7) true;
        Thread (run_handle_client 8) true ] /\
    listening (host_world h') = false.
Proof.
  split; [reflexivity |]. split; [apply sample_host_address_found |].
  destruct (interrupt_stops_server gps_android_py 5 sample_host
              [ (7%nat, ("192.168.1.50", 50000));
                (8%nat, ("192.168.1.51", 50001)) ] []
              eq_refl (sample_host_address_found _) eq_refl)
    as (h' & Hrun & Hst & Hl & _); [cbn; lia |].
  exists h'. split; [exact Hrun |]. split; [exact Hst | exact Hl].
Defined.

Lemma bind_failure_is_fatal_witness :
  exists h',
    start_server_of gps_pc_py 5
      (Host sample_world false None None [] (Some (OSError 98))
            (inr "192.168.1.10") (inl FileNotFoundError) [])
    = Failed (OSError 98) h' /\
    started h' = [] /\
    host_world h' = sample_world.
Proof.
  destruct (bind_failure_is_fatal gps_pc_py 5
              (Host sample_world false None None [] (Some (OSError 98))
                    (inr "192.168.1.10") (inl FileNotFoundError) [])
              (OSError 98) eq_refl) as (h' & Hrun & Hw & Hst & _).
  exists h'. split; [exact Hrun |]. split; [exact Hst | exact Hw].
Defined.

Lemma address_failure_leaves_socket_open_witness :
  exists h',
    start_server_of gps_android_py 5
      (Host sample_world false None None [] None
            (inr "192.168.1.10") (inl (CalledProcessError 1)) [])
    = Failed (CalledProcessError 1) h' /\
    listening (host_world h') = true /\
    started h' = [].
Proof.
  destruct (address_failure_leaves_socket_open gps_android_py 5
              (Host sample_world false None None [] None
                    (inr "192.168.1.10") (inl (CalledProcessError 1)) [])
              (CalledProcessError 1) eq_refl (or_introl eq_refl))
    as (h' & Hrun & Hl & _ & Hst & _).
  exists h'. split; [exact Hrun |]. split; [exact Hl | exact Hst].
Defined.

Lemma accept_error_is_fatal_witness :
  exists h',
    start_server_of gps_pc_py 5
      (Host sample_world false None None [] None
            (inr "192.168.1.10") (inl FileNotFoundError)
            [ inr (7%nat, ("192.168.1.50", 50000)); inl (OSError 24) ])
    = Failed (OSError 24) h' /\
    listening (host_world h') = true /\
    started h'
    = [ Thread run_handle_user_input true;
        Thread (run_handle_client 7) true ].
Proof.
  destruct (accept_error_is_fatal gps_pc_py 5
              (Host sample_world false None None [] None
                    (inr "192.168.1.10") (inl FileNotFoundError)
                    [ inr (7%nat, ("192.168.1.50", 50000));
                      inl (OSError 24) ])
              [ (7%nat, ("192.168.1.50", 50000)) ] (OSError 24) []
              eq_refl (ex_intro _ _ eq_refl) eq_refl eq_refl)
    as (h' & Hrun & Hst & Hl & _); [cbn; lia |].
  exists h'. split; [exact Hrun |]. split; [exact Hl | exact Hst].
Defined.

Lemma server_waits_for_connections_witness :
  exists h',
    start_server_of gps_pc_py 5
      (Host sample_world false None None [] None
            (inr "192.168.1.10") (inl FileNotFoundError)
            [ inr (7%nat, ("192.168.1.50", 50000)) ])
    = Waiting h' /\
    listening (host_world h') = true /\
    started h'
    = [ Thread run_handle_user_input true;
        Thread (run_handle_client 7) true ].
Proof.
  destruct (server_waits_for_connections gps_pc_py 5
              (Host sample_world false None None [] None
                    (inr "192.168.1.10") (inl FileNotFoundError)
                    [ inr (7%nat, ("192.168.1.50", 50000)) ])
              [ (7%nat, ("192.168.1.50", 50000)) ]
              eq_refl (ex_intro _ _ eq_refl) eq_refl)
    as (h' & Hrun & Hst & Hl & _); [cbn; lia |].
  exists h'. split; [exact Hrun |]. split; [exact Hl | exact Hst].
Defined.

(** The address on a device whose interface has one *)
Example wlan0_address_of_sample :
  wlan0_address sample_ifconfig sample_world
  = Return "192.168.1.23" sample_world.
Proof. vm_compute. reflexivity. Qed.

(** The live script from its first line to the interrupt *)
Example android_main_serves_two_clients :
  exists h',
    gps_android_main.main 5 sample_host = Served tt h' /\
    started h'
    = [ Thread run_handle_user_input true;
        Thread (run_handle_client 7) true;
        Thread (run_handle_client 8) true ] /\
    termux_runs (host_world h') = 1%nat /\
    listening (host_world h') = false.
Proof. eexists. repeat split; vm_compute; reflexivity. Qed.
